(** * Contour backend: GPX track extraction and terrain raster normalisation

    A shallow embedding of [backend/gpx_parser.py] and [backend/terrain.py]
    and the properties of their results.

    - Python [int] is [Z]; lists are [list]; dictionaries with a fixed set of
      keys are records; [Element.attrib] is a finite map.
    - Python [float] is an instance of the class [Float].  Two instances are
      given: IEEE binary64 on the kernel's primitive floats ([binary64]), the
      arithmetic CPython and numpy run, used to evaluate the code on concrete
      inputs; and the rationals with a rounding operator applied after every
      operation ([rounded]), used for the statements over all inputs under
      the standard model of floating point arithmetic (relative error at most
      the unit roundoff, no overflow, no underflow, no nan).
    - Exceptions are values of [exception]; a computation that may raise
      returns a [result]; a computation that touches the file system runs in
      [io], which also records which paths were opened.
    - ElementTree, rasterio and Pillow are libraries outside the repository:
      files are modelled by what their readers return, and Pillow's
      resampling, blurring, mode conversion and encoders are the fields of
      the class [Pillow], with the facts about sizes they guarantee. *)

From Stdlib Require Import ZArith QArith Qround Qabs Lqa Floats.
From stdpp Require Import base list strings gmap.
From Stdlib Require Import Ascii.

Set Warnings "-register-all".

Open Scope Z_scope.

(** ** Exceptions and results *)

Inductive exception : Type :=
| ParseError            (* xml.etree.ElementTree.ParseError *)
| TypeError             (* float(None) *)
| ValueError            (* float("abc"), range(a, b, 0), max([]), resize to an empty size *)
| IndexError            (* l[i] out of range *)
| FileNotFoundError
| RasterioIOError       (* rasterio.open on something that is not a raster *)
| UnidentifiedImageError
| ZeroDivisionError
| RuntimeError (msg : string)
| InvalidValue.         (* numpy: a zero divisor; the quotient is nan or inf (a
                           RuntimeWarning, not a Python exception) and its cast
                           to uint8 is undefined *)

Inductive result (A : Type) : Type :=
| Ok (a : A)
| Raise (e : exception).
Arguments Ok {A} a.
Arguments Raise {A} e.

#[global] Instance result_ret : MRet result := fun A a => Ok a.

#[global] Instance result_bind : MBind result := fun A B k c =>
  match c with
  | Ok a => k a
  | Raise e => Raise e
  end.

(** [for x in xs: body] with the loop's variables as the state [s]. *)
Fixpoint for_each {A S} (xs : list A) (body : S -> A -> result S) (s : S) : result S :=
  match xs with
  | [] => Ok s
  | x :: xs' => s' ← body s x; for_each xs' body s'
  end.

(** ** The file system and the [io] monad *)

(** What the program did to the file system: it asked a library to open
    [path], whether or not a file the library can read is there. *)
Inductive event : Type :=
| Opened (path : string).

Definition io (A : Type) : Type := list event -> result A * list event.

#[global] Instance io_ret : MRet io := fun A a t => (Ok a, t).

#[global] Instance io_bind : MBind io := fun A B k c t =>
  match c t with
  | (Ok a, t') => k a t'
  | (Raise e, t') => (Raise e, t')
  end.

(** A computation that raises, or not, without touching the file system. *)
Definition lift {A} (r : result A) : io A := fun t => (r, t).

(** Running an extractor from a fresh trace. *)
Definition run {A} (c : io A) : result A * list event := c [].

(** ** Python numbers *)

Class Float (F : Type) : Type := {
  of_int : Z -> F;              (* float(i), exact for |i| < 2^53 *)
  of_str : string -> option F;  (* float(s); None is ValueError *)
  fsub : F -> F -> F;
  fmul : F -> F -> F;
  fdiv : F -> F -> option F;    (* None: zero divisor *)
  flt : F -> F -> bool;         (* x < y *)
  feq : F -> F -> bool;         (* x == y *)
  trunc : F -> Z                (* int(x), astype of a value in range: toward zero *)
}.

(** Python's [max] and [min] of a non-empty sequence: the first item, replaced
    by each later item that compares strictly greater (smaller). *)
Definition max_from {F} {FF : Float F} (x : F) (xs : list F) : F :=
  fold_left (fun m y => if flt m y then y else m) xs x.

Definition min_from {F} {FF : Float F} (x : F) (xs : list F) : F :=
  fold_left (fun m y => if flt y m then y else m) xs x.

Definition py_max {F} {FF : Float F} (xs : list F) : result F :=
  match xs with
  | [] => Raise ValueError
  | x :: xs' => Ok (max_from x xs')
  end.

Definition py_min {F} {FF : Float F} (xs : list F) : result F :=
  match xs with
  | [] => Raise ValueError
  | x :: xs' => Ok (min_from x xs')
  end.

(** [min(a, b)] *)
Definition py_min2 {F} {FF : Float F} (a b : F) : F := if flt b a then b else a.

(** [float(x)] for [x : str | None] *)
Definition py_float {F} {FF : Float F} (x : option string) : result F :=
  match x with
  | None => Raise TypeError
  | Some s =>
      match of_str s with
      | Some v => Ok v
      | None => Raise ValueError
      end
  end.

(** [l[i]], with Python's negative indices. *)
Definition py_index {A} (l : list A) (i : Z) : result A :=
  let n := Z.of_nat (length l) in
  let j := if i <? 0 then i + n else i in
  if (j <? 0) || (n <=? j) then Raise IndexError
  else match l !! Z.to_nat j with
       | Some x => Ok x
       | None => Raise IndexError
       end.

(** [range(start, stop, step)] *)
Fixpoint range_up (fuel : nat) (i stop step : Z) : list Z :=
  match fuel with
  | O => []
  | S fuel' => if i <? stop then i :: range_up fuel' (i + step) stop step else []
  end.

Fixpoint range_down (fuel : nat) (i stop step : Z) : list Z :=
  match fuel with
  | O => []
  | S fuel' => if stop <? i then i :: range_down fuel' (i + step) stop step else []
  end.

Definition py_range (start stop step : Z) : result (list Z) :=
  if step =? 0 then Raise ValueError
  else if 0 <? step then Ok (range_up (Z.to_nat (stop - start)) start stop step)
  else Ok (range_down (Z.to_nat (start - stop)) start stop step).

(** *** Decimal literals

    [float(s)] is modelled on the decimals a GPX file holds (an optional
    sign, digits, at most one point).  The other spellings Python reads
    (exponents, surrounding blanks, underscores, inf, nan) are outside the
    model, where they count as unreadable. *)

Definition digit_of (c : Ascii.ascii) : option Z :=
  let n := Z.of_N (Ascii.N_of_ascii c) in
  if (48 <=? n) && (n <=? 57) then Some (n - 48) else None.

(** Digits and at most one point: the digits read as an integer, and the
    number of digits after the point. *)
Fixpoint scan_digits (s : string) (acc : Z) (frac : option nat) (seen : bool)
  : option (Z * nat) :=
  match s with
  | EmptyString => if seen then Some (acc, default 0%nat frac) else None
  | String "."%char s' =>
      match frac with
      | None => scan_digits s' acc (Some 0%nat) seen
      | Some _ => None
      end
  | String c s' =>
      match digit_of c with
      | Some d => scan_digits s' (10 * acc + d) (S <$> frac) true
      | None => None
      end
  end.

Definition parse_decimal (s : string) : option (Z * nat) :=
  match s with
  | String "-"%char s' => '(m, k) ← scan_digits s' 0 None false; Some (- m, k)
  | String "+"%char s' => scan_digits s' 0 None false
  | _ => scan_digits s 0 None false
  end.

(** *** IEEE binary64 *)

Definition binary64_of_int (z : Z) : float :=
  if 0 <=? z then PrimFloat.of_uint63 (Uint63.of_Z z)
  else PrimFloat.opp (PrimFloat.of_uint63 (Uint63.of_Z (- z))).

Definition binary64_trunc (x : float) : Z :=
  match Prim2SF x with
  | S754_finite s m e =>
      let a := if 0 <=? e then Z.pos m * 2 ^ e else Z.pos m / 2 ^ (- e) in
      if s then - a else a
  | _ => 0
  end.

(** A decimal with at most 15 digits and at most 22 of them after the point
    is read exactly as CPython reads it: both operands of the division are
    representable and the division rounds once. *)
#[global] Instance binary64 : Float float := {
  of_int := binary64_of_int;
  of_str s := '(m, k) ← parse_decimal s;
              Some (PrimFloat.div (binary64_of_int m) (binary64_of_int (10 ^ Z.of_nat k)));
  fsub := PrimFloat.sub;
  fmul := PrimFloat.mul;
  fdiv x y := if PrimFloat.eqb y PrimFloat.zero then None else Some (PrimFloat.div x y);
  flt := PrimFloat.ltb;
  feq := PrimFloat.eqb;
  trunc := binary64_trunc
}.

(** *** Rationals with a rounding operator *)

Definition Qtrunc (q : Q) : Z := Z.quot (Qnum q) (Z.pos (Qden q)).

Definition Qltb (x y : Q) : bool :=
  match (x ?= y)%Q with
  | Lt => true
  | _ => false
  end.

(** The finite floats as the rationals they denote; [rnd] maps the exact
    result of an operation to the float that represents it.  Integers are
    converted exactly (every integer the code converts is below 2^53). *)
Definition rounded (rnd : Q -> Q) : Float Q := {|
  of_int z := inject_Z z;
  of_str s := '(m, k) ← parse_decimal s; Some (rnd (inject_Z m / inject_Z (10 ^ Z.of_nat k))%Q);
  fsub x y := rnd (x - y)%Q;
  fmul x y := rnd (x * y)%Q;
  fdiv x y := if Qeq_bool y 0 then None else Some (rnd (x / y)%Q);
  flt := Qltb;
  feq := Qeq_bool;
  trunc := Qtrunc
|}.

(** Exact arithmetic: nothing is rounded. *)
Definition exact : Float Q := rounded (fun q => q).

(** ** xml.etree.ElementTree *)

Module ET.

(** An element; [tag] is the qualified name [{uri}local]. *)
Inductive Element : Type :=
| Elem (tag : string) (attrib : gmap string string) (text : option string)
       (children : list Element).

Definition tag (e : Element) : string := let 'Elem t _ _ _ := e in t.
Definition attrib (e : Element) : gmap string string := let 'Elem _ a _ _ := e in a.
Definition text (e : Element) : option string := let 'Elem _ _ t _ := e in t.
Definition children (e : Element) : list Element := let 'Elem _ _ _ c := e in c.

(** What is stored under a path, as the XML parser sees it. *)
Inductive file : Type :=
| Malformed                 (* not a well-formed XML document *)
| Document (root : Element).

(** [ET.parse(file_path).getroot()] *)
Definition parse (fs : gmap string file) (file_path : string) : io Element :=
  fun t =>
    match fs !! file_path with
    | None => (Raise FileNotFoundError, t ++ [Opened file_path])
    | Some Malformed => (Raise ParseError, t ++ [Opened file_path])
    | Some (Document root) => (Ok root, t ++ [Opened file_path])
    end.

(** [prefix:local] resolved against the namespace map [ns] *)
Definition qname (ns : gmap string string) (prefix local : string) : string :=
  "{" +:+ default "" (ns !! prefix) +:+ "}" +:+ local.

(** All elements below [e], in document order. *)
Fixpoint descendants (e : Element) : list Element :=
  (fix go (cs : list Element) : list Element :=
     match cs with
     | [] => []
     | c :: cs' => c :: descendants c ++ go cs'
     end) (children e).

Definition has_tag (t : string) (e : Element) : bool := bool_decide (tag e = t).

(** [e.findall('.//prefix:local', ns)] *)
Definition findall_descendants (e : Element) (ns : gmap string string) (prefix local : string)
  : list Element :=
  filter (fun c => has_tag (qname ns prefix local) c = true) (descendants e).

(** [e.find('prefix:local', ns)] *)
Definition find (e : Element) (ns : gmap string string) (prefix local : string)
  : option Element :=
  head (filter (fun c => has_tag (qname ns prefix local) c = true) (children e)).

(** [e.get(key)] *)
Definition get (e : Element) (key : string) : option string := attrib e !! key.

End ET.

(** ** numpy *)

Module np.

(** The array [src.read()] returns, of shape (bands, height, width).  The
    samples of a [uint8] raster are bytes; those of any wider dtype are
    modelled by their value.  (For the signed integer dtypes numpy subtracts
    in the dtype, and a difference that wraps is outside this model.) *)
Inductive ndarray (F : Type) : Type :=
| uint8 (a : list (list (list Z)))
| wide (a : list (list (list F))).
Arguments uint8 {F} a.
Arguments wide {F} a.

(** [a.shape[0]] *)
Definition shape0 {F} (a : ndarray F) : Z :=
  match a with
  | uint8 a => Z.of_nat (length a)
  | wide a => Z.of_nat (length a)
  end.

(** [np.stack([b0, b1, b2], axis=-1)] of three arrays of one shape *)
Definition stack3 {A} (b0 b1 b2 : list (list A)) : list (list (list A)) :=
  zip_with (fun r0 r12 => zip_with (fun x yz => [x; yz.1; yz.2]) r0 (zip r12.1 r12.2))
           b0 (zip b1 b2).

Section reductions.
Context {F : Type} {FF : Float F}.

(** [a.min()], [a.max()] over all the cells of [a] *)
Definition min (cells : list F) : result F := py_min cells.
Definition max (cells : list F) : result F := py_max cells.

(** [np.clip(x, lo, hi)] at one cell *)
Definition clip (x lo hi : F) : F :=
  let y := if flt x lo then lo else x in
  if flt hi y then hi else y.

(** [x.astype(np.uint8)] at one cell: toward zero; a value outside [0, 256)
    wraps on the usual platforms. *)
Definition astype_uint8 (x : F) : Z := trunc x `mod` 256.

End reductions.

End np.

(** ** rasterio *)

Module rasterio.

Record DatasetReader (F : Type) : Type := {
  crs : string;
  bounds : F * F * F * F;           (* left, bottom, right, top *)
  nodata : option F;
  read : np.ndarray F
}.
Arguments crs {F} _.
Arguments bounds {F} _.
Arguments nodata {F} _.
Arguments read {F} _.

(** [rasterio.open(file_path)]; a path that holds no raster is not in [fs]. *)
Definition open {F} (fs : gmap string (DatasetReader F)) (file_path : string)
  : io (DatasetReader F) :=
  fun t =>
    match fs !! file_path with
    | None => (Raise RasterioIOError, t ++ [Opened file_path])
    | Some src => (Ok src, t ++ [Opened file_path])
    end.

End rasterio.

(** ** PIL.Image *)

Module Image.

(** An image: its mode, its size, and its rows of pixels, a pixel being the
    list of its channel values (three for RGB, one for L). *)
Record image : Type := {
  mode : string;
  width : Z;
  height : Z;
  pixels : list (list (list Z))
}.

Definition size (img : image) : Z * Z := (width img, height img).

(** The pixel grid has the declared size. *)
Definition wf (img : image) : Prop :=
  0 <= width img /\
  Z.of_nat (length (pixels img)) = height img /\
  Forall (fun row => Z.of_nat (length row) = width img) (pixels img).

(** The pixel in column [x] of row [y]. *)
Definition getpixel (img : image) (x y : Z) : option (list Z) :=
  if (x <? 0) || (y <? 0) then None
  else row ← pixels img !! Z.to_nat y; row !! Z.to_nat x.

(** [Image.fromarray(rgb)] for a uint8 array of shape (height, width, 3) *)
Definition fromarray (rgb : list (list (list Z))) : image :=
  {| mode := "RGB";
     width := Z.of_nat (length (default [] (head rgb)));
     height := Z.of_nat (length rgb);
     pixels := rgb |}.

(** [Image.new(mode, (w, h), color)] for a single channel mode *)
Definition new (mode : string) (size : Z * Z) (color : Z) : image :=
  {| mode := mode;
     width := size.1;
     height := size.2;
     pixels := replicate (Z.to_nat size.2) (replicate (Z.to_nat size.1) [color]) |}.

(** [canvas.paste(img, (ox, oy))]: the pixels of [canvas] under [img] placed
    with its top left corner at column [ox], row [oy] are replaced. *)
Definition paste (canvas img : image) (box : Z * Z) : image :=
  {| mode := mode canvas;
     width := width canvas;
     height := height canvas;
     pixels :=
       imap (fun y row =>
               imap (fun x c => default c (getpixel img (Z.of_nat x - box.1) (Z.of_nat y - box.2)))
                    row)
            (pixels canvas) |}.

(** [Image.open(file_path)]; a path that holds no image is not in [fs]. *)
Definition open (fs : gmap string image) (file_path : string) : io image :=
  fun t =>
    match fs !! file_path with
    | None => (Raise UnidentifiedImageError, t ++ [Opened file_path])
    | Some img => (Ok img, t ++ [Opened file_path])
    end.

(** The operations of Pillow and of [base64] whose results the code only
    passes on, with what they guarantee about modes and sizes. *)
Class Pillow : Type := {
  (* img.resize(size, Image.LANCZOS) *)
  resize : image -> Z * Z -> result image;
  (* img.convert(mode) *)
  convert : image -> string -> image;
  (* img.filter(ImageFilter.GaussianBlur(radius=r)) *)
  GaussianBlur : image -> Z -> image;
  (* img.save(buffer, format, quality=q) and buffer.read() *)
  save : image -> string -> option Z -> list Z;
  (* base64.b64encode(bytes).decode('utf-8') *)
  b64encode : list Z -> string;
  resize_ok : forall img w h, 1 <= w -> 1 <= h ->
    exists out, resize img (w, h) = Ok out /\
                mode out = mode img /\ size out = (w, h) /\ wf out;
  convert_ok : forall img m, wf img ->
    mode (convert img m) = m /\ size (convert img m) = size img /\ wf (convert img m);
  GaussianBlur_ok : forall img r, wf img ->
    mode (GaussianBlur img r) = mode img /\ size (GaussianBlur img r) = size img /\
    wf (GaussianBlur img r)
}.

End Image.

(** ** Results shared by the extractors *)

Record bounds (F : Type) : Type := {
  north : F;
  south : F;
  east : F;
  west : F
}.
Arguments north {F} _.
Arguments south {F} _.
Arguments east {F} _.
Arguments west {F} _.

(** ** backend/gpx_parser.py *)

Module gpx_parser.

Import ET.

Definition ns : gmap string string := {[ "gpx" := "http://www.topografix.com/GPX/1/1" ]}.

(** [root.find('.//gpx:trk/gpx:name', ns)] *)
Definition find_track_name (root : Element) : option Element :=
  head (omap (fun trk => find trk ns "gpx" "name") (findall_descendants root ns "gpx" "trk")).

Record point (F : Type) : Type := {
  lat : F;
  lon : F;
  ele : F
}.
Arguments lat {F} _.
Arguments lon {F} _.
Arguments ele {F} _.

Record elevation_range (F : Type) : Type := {
  range_min : F;
  range_max : F
}.
Arguments range_min {F} _.
Arguments range_max {F} _.

Record track (F : Type) : Type := {
  name : option string;
  points : list (point F);
  track_bounds : bounds F;
  track_elevation_range : elevation_range F;
  total_points : Z;
  simplified_points : Z
}.
Arguments name {F} _.
Arguments points {F} _.
Arguments track_bounds {F} _.
Arguments track_elevation_range {F} _.
Arguments total_points {F} _.
Arguments simplified_points {F} _.

Section parse.
Context {F : Type} {FF : Float F}.

(** Lines 42-50: the body of the loop over the track points; the state is
    [(all_lats, all_lons, all_eles)]. *)
Definition read_trkpt (acc : list F * list F * list F) (trkpt : Element)
  : result (list F * list F * list F) :=
  let '(all_lats, all_lons, all_eles) := acc in
  lat ← py_float (get trkpt "lat");
  lon ← py_float (get trkpt "lon");
  ele ← match find trkpt ns "gpx" "ele" with
        | Some ele_elem => py_float (text ele_elem)
        | None => Ok (of_int 0)
        end;
  Ok (all_lats ++ [lat], all_lons ++ [lon], all_eles ++ [ele]).

Definition read_trkpts (root : Element) : result (list F * list F * list F) :=
  for_each (findall_descendants root ns "gpx" "trkpt") read_trkpt ([], [], []).

(** Lines 52-67: every [simplify_factor]-th point, then the last one. *)
Definition keep_point (all_lats all_lons all_eles : list F) (points : list (point F)) (i : Z)
  : result (list (point F)) :=
  lat ← py_index all_lats i;
  lon ← py_index all_lons i;
  ele ← py_index all_eles i;
  Ok (points ++ [{| lat := lat; lon := lon; ele := ele |}]).

Definition simplify (all_lats all_lons all_eles : list F) (simplify_factor : Z)
  : result (list (point F)) :=
  let total_points := Z.of_nat (length all_lats) in
  indices ← py_range 0 total_points simplify_factor;
  points ← for_each indices (keep_point all_lats all_lons all_eles) [];
  if (0 <? total_points) && negb ((total_points - 1) `mod` simplify_factor =? 0)
  then keep_point all_lats all_lons all_eles points (-1)
  else Ok points.

(** Lines 69-83 *)
Definition extent (all_lats all_lons all_eles : list F)
  : result (bounds F * elevation_range F) :=
  match all_lats with
  | _ :: _ =>
      n ← py_max all_lats;
      s ← py_min all_lats;
      e ← py_max all_lons;
      w ← py_min all_lons;
      lo ← py_min all_eles;
      hi ← py_max all_eles;
      Ok ({| north := n; south := s; east := e; west := w |},
          {| range_min := lo; range_max := hi |})
  | [] =>
      Ok ({| north := of_int 0; south := of_int 0; east := of_int 0; west := of_int 0 |},
          {| range_min := of_int 0; range_max := of_int 0 |})
  end.

Definition parse_gpx (fs : gmap string file) (file_path : string) (simplify_factor : Z)
  : io (track F) :=
  root ← ET.parse fs file_path;
  lift (
    let track_name :=
      match find_track_name root with
      | Some name_elem => text name_elem
      | None => Some "Unknown Track"
      end in
    '(all_lats, all_lons, all_eles) ← read_trkpts root;
    let total_points := Z.of_nat (length all_lats) in
    points ← simplify all_lats all_lons all_eles simplify_factor;
    '(bounds, elevation_range) ← extent all_lats all_lons all_eles;
    Ok {| name := track_name;
          points := points;
          track_bounds := bounds;
          track_elevation_range := elevation_range;
          total_points := total_points;
          simplified_points := Z.of_nat (length points) |}).

End parse.

End gpx_parser.

(** ** backend/terrain.py *)

Module terrain.

Record texture : Type := {
  texture_b64 : string;
  width : Z;
  height : Z;
  original_width : Z;
  original_height : Z
}.

Record geotiff_data (F : Type) : Type := {
  geo_bounds : bounds F;
  geo_texture : texture
}.
Arguments geo_bounds {F} _.
Arguments geo_texture {F} _.

Section extract.
Context {F : Type} {FF : Float F} {PIL : Image.Pillow}.

(** Whether [import rasterio] succeeded when the module was loaded. *)
Variable HAS_RASTERIO : bool.

(** [rasterio.warp.transform_bounds(src_crs, dst_crs, left, bottom, right, top)] *)
Variable transform_bounds : string -> string -> F * F * F * F -> F * F * F * F.

(** Line 57 at one cell: [(x - rgb.min()) / (rgb.max() - rgb.min()) * 255],
    cast to uint8. *)
Definition rescale (lo hi x : F) : result Z :=
  match fdiv (fsub x lo) (fsub hi lo) with
  | Some q => Ok (np.astype_uint8 (fmul q (of_int 255)))
  | None => Raise InvalidValue
  end.

(** Lines 52-57: three bands or more. *)
Definition rgb_of_bands (data : np.ndarray F) : result (list (list (list Z))) :=
  match data with
  | np.uint8 a =>
      b0 ← py_index a 0;
      b1 ← py_index a 1;
      b2 ← py_index a 2;
      Ok (np.stack3 b0 b1 b2)
  | np.wide a =>
      b0 ← py_index a 0;
      b1 ← py_index a 1;
      b2 ← py_index a 2;
      let rgb := np.stack3 b0 b1 b2 in
      lo ← np.min (concat (concat rgb));
      hi ← np.max (concat (concat rgb));
      mapM (mapM (mapM (rescale lo hi))) rgb
  end.

(** Line 60: [data[0].astype(float)] *)
Definition first_band (data : np.ndarray F) : result (list (list F)) :=
  match data with
  | np.uint8 a => b ← py_index a 0; Ok (map (map of_int) b)
  | np.wide a => py_index a 0
  end.

(** Line 61 *)
Definition valid_mask (band : list (list F)) (nodata : option F) : list (list bool) :=
  match nodata with
  | Some nd => map (map (fun x => negb (feq x nd))) band
  | None => map (map (fun _ => true)) band
  end.

(** [band[valid_mask]] *)
Definition select (band : list (list F)) (mask : list (list bool)) : list F :=
  omap (fun xm : F * bool => if xm.2 then Some xm.1 else None)
       (zip (concat band) (concat mask)).

(** [np.any(valid_mask)] *)
Definition any (mask : list (list bool)) : bool := existsb (fun m => m) (concat mask).

(** Lines 63-64 *)
Definition band_range (band : list (list F)) (nodata : option F) : result (F * F) :=
  let mask := valid_mask band nodata in
  b_min ← (if any mask then np.min (select band mask) else Ok (of_int 0));
  b_max ← (if any mask then np.max (select band mask) else Ok (of_int 1));
  Ok (b_min, b_max).

(** Line 67 at one cell *)
Definition stretch (b_min b_max x : F) : result F :=
  match fdiv (fsub x b_min) (fsub b_max b_min) with
  | Some q => Ok (fmul q (of_int 255))
  | None => Raise InvalidValue
  end.

(** Lines 59-72: fewer than three bands. *)
Definition rgb_of_band (data : np.ndarray F) (nodata : option F)
  : result (list (list (list Z))) :=
  band ← first_band data;
  '(b_min, b_max) ← band_range band nodata;
  normalized ← (if flt b_min b_max
                then mapM (mapM (stretch b_min b_max)) band
                else Ok (map (map (fun _ => of_int 0)) band));
  let normalized :=
    map (map (fun x => np.astype_uint8 (np.clip x (of_int 0) (of_int 255)))) normalized in
  Ok (np.stack3 normalized normalized normalized).

(** Lines 51-72 *)
Definition to_rgb (data : np.ndarray F) (nodata : option F) : result (list (list (list Z))) :=
  if 3 <=? np.shape0 data then rgb_of_bands data else rgb_of_band data nodata.

(** [a / b] for two [int]s *)
Definition true_div (a b : Z) : result F :=
  match fdiv (of_int a) (of_int b) with
  | Some q => Ok q
  | None => Raise ZeroDivisionError
  end.

(** Lines 79-82 and 122-125: the size the image is resized to, if it is. *)
Definition new_size (w h : Z) : result (option (Z * Z)) :=
  let max_dim := 2048 in
  if (max_dim <? w) || (max_dim <? h) then
    rw ← true_div max_dim w;
    rh ← true_div max_dim h;
    let ratio := py_min2 rw rh in
    Ok (Some (trunc (fmul (of_int w) ratio), trunc (fmul (of_int h) ratio)))
  else Ok None.

(** Lines 78-83 and 121-126 *)
Definition resize_for_web (img : Image.image) : result Image.image :=
  size ← new_size (Image.width img) (Image.height img);
  match size with
  | Some new_size => Image.resize img new_size
  | None => Ok img
  end.

(** Lines 85-89 and 128-132 *)
Definition encode_jpeg (img : Image.image) : string :=
  Image.b64encode (Image.save img "JPEG" (Some 85)).

Definition describe (img : Image.image) (original : Z * Z) : texture :=
  {| texture_b64 := encode_jpeg img;
     width := Image.width img;
     height := Image.height img;
     original_width := original.1;
     original_height := original.2 |}.

(** Lines 49-83: the working image before it is encoded, and the size it
    had before it was resized. *)
Definition normalize (src : rasterio.DatasetReader F) : result (Image.image * (Z * Z)) :=
  rgb ← to_rgb (rasterio.read src) (rasterio.nodata src);
  let img := Image.fromarray rgb in
  let original := Image.size img in
  img ← resize_for_web img;
  Ok (img, original).

Definition extract_geotiff_data (fs : gmap string (rasterio.DatasetReader F))
    (file_path : string) : io (geotiff_data F) :=
  if negb HAS_RASTERIO
  then lift (Raise (RuntimeError "rasterio required for GeoTIFF processing"))
  else
    src ← rasterio.open fs file_path;
    lift (
      let wgs84_bounds :=
        transform_bounds (rasterio.crs src) "EPSG:4326" (rasterio.bounds src) in
      let '(w, s, e, n) := wgs84_bounds in
      let bounds := {| west := w; south := s; east := e; north := n |} in
      '(img, original) ← normalize src;
      Ok {| geo_bounds := bounds; geo_texture := describe img original |}).

Definition extract_from_image (fs : gmap string Image.image) (file_path : string)
  : io texture :=
  img ← Image.open fs file_path;
  lift (
    let img := if bool_decide (Image.mode img = "RGB") then img else Image.convert img "RGB" in
    let original := Image.size img in
    img ← resize_for_web img;
    Ok (describe img original)).

(** Lines 154-158 *)
Definition make_square (img : Image.image) : Image.image :=
  let '(w, h) := Image.size img in
  let max_dim := Z.max w h in
  let square := Image.new "L" (max_dim, max_dim) 0 in
  let offset := ((max_dim - w) / 2, (max_dim - h) / 2) in
  Image.paste square img offset.

(** Lines 148-161: the image that is encoded. *)
Definition heightmap (img : Image.image) (target_size : Z) : result Image.image :=
  let img := Image.convert img "L" in
  let img := Image.GaussianBlur img 1 in
  let square := make_square img in
  Image.resize square (target_size, target_size).

Definition process_heightmap (fs : gmap string Image.image) (file_path : string)
    (target_size : Z) : io string :=
  img ← Image.open fs file_path;
  lift (
    final ← heightmap img target_size;
    Ok (Image.b64encode (Image.save final "PNG" None))).

End extract.

End terrain.

(** * Vocabulary of the statements *)

(** ** Tracks *)

(** The source track: the three parallel sequences read as one sequence of
    points. *)
Definition samples {F} (all_lats all_lons all_eles : list F) : list (gpx_parser.point F) :=
  zip_with (fun la lo_el => {| gpx_parser.lat := la; gpx_parser.lon := lo_el.1; gpx_parser.ele := lo_el.2 |})
           all_lats (zip all_lons all_eles).

(** The number of points kept for a track of [n] points and stride [s]. *)
Definition kept_count (n s : Z) : Z :=
  (n + s - 1) / s + (if (0 <? n) && negb ((n - 1) `mod` s =? 0) then 1 else 0).

(** [m] is an item of [l] that no item of [l] exceeds (resp. is below). *)
Definition maximum_of (l : list Q) (m : Q) : Prop :=
  m ∈ l /\ forall x, x ∈ l -> (x <= m)%Q.

Definition minimum_of (l : list Q) (m : Q) : Prop :=
  m ∈ l /\ forall x, x ∈ l -> (m <= x)%Q.

(** ** Arrays and textures *)

(** [g] has [h] rows of [w] cells. *)
Definition grid_shape {A} (g : list (list A)) (h w : Z) : Prop :=
  Z.of_nat (length g) = h /\ Forall (fun row => Z.of_nat (length row) = w) g.

(** Every band of [data] has [h] rows of [w] cells. *)
Definition raster_shape {F} (data : np.ndarray F) (h w : Z) : Prop :=
  match data with
  | np.uint8 a => Forall (fun b => grid_shape b h w) a
  | np.wide a => Forall (fun b => grid_shape b h w) a
  end.

(** Every pixel has three channels. *)
Definition three_channels (px : list (list (list Z))) : Prop :=
  Forall (Forall (fun p => length p = 3%nat)) px.

(** Channel [k] of a pixel grid, as a band. *)
Definition band_of (k : nat) (px : list (list (list Z))) : list (list Z) :=
  map (map (fun p => default 0 (p !! k))) px.

(** The raster an 8-bit RGB texture is when it is read back: three uint8
    bands, one per channel. *)
Definition raster_of_texture {F} (img : Image.image) (crs : string) (bounds : F * F * F * F)
    (nodata : option F) : rasterio.DatasetReader F :=
  {| rasterio.crs := crs;
     rasterio.bounds := bounds;
     rasterio.nodata := nodata;
     rasterio.read :=
       np.uint8 [band_of 0 (Image.pixels img); band_of 1 (Image.pixels img);
                 band_of 2 (Image.pixels img)] |}.

(** Whether a pixel is a measurement: it is not equal to the no-data
    sentinel, when one is declared. *)
Definition is_valid {F} {FF : Float F} (nodata : option F) (x : F) : bool :=
  match nodata with
  | Some nd => negb (feq x nd)
  | None => true
  end.

(** ** The standard model of floating point arithmetic

    Every operation returns its exact result times [1 + d] for some
    [|d| <= unit_roundoff]: what IEEE binary64 guarantees for results in its
    normal range. *)

Definition unit_roundoff : Q := 1 # 9007199254740992.

(** [n] is [side * 2048 / longest] truncated, up to the two roundings of the
    computation: the source side scaled by the exact ratio of the cap. *)
Definition scaled_by_cap (side longest n : Z) : Prop :=
  (inject_Z n * inject_Z longest
   <= 2048 * inject_Z side * (1 + unit_roundoff) * (1 + unit_roundoff))%Q /\
  (2048 * inject_Z side * (1 - unit_roundoff) * (1 - unit_roundoff)
   < (inject_Z n + 1) * inject_Z longest)%Q.

(** The value line 67 or line 69 gives a pixel, in the arithmetic [rounded
    rnd]. *)
Definition stretched (rnd : Q -> Q) (b_min b_max x : Q) : Q :=
  if Qltb b_min b_max
  then rnd (rnd (rnd (x - b_min) / rnd (b_max - b_min)) * 255)%Q
  else 0%Q.

(** Lines 71-72 at one pixel. *)
Definition grey_pixel (rnd : Q -> Q) (b_min b_max x : Q) : list Z :=
  let z := np.astype_uint8 (FF:=rounded rnd)
             (np.clip (FF:=rounded rnd) (stretched rnd b_min b_max x) 0%Q 255%Q) in
  [z; z; z].

(** * Example inputs *)

(** ** Track files *)

(** A track file with five points, read with exact arithmetic in the
    examples below. *)
Definition trkpt_elem (la lo : string) (el : option string) : ET.Element :=
  ET.Elem (ET.qname gpx_parser.ns "gpx" "trkpt") {[ "lat" := la; "lon" := lo ]} None
    (match el with
     | Some e => [ET.Elem (ET.qname gpx_parser.ns "gpx" "ele") ∅ (Some e) []]
     | None => []
     end).

Definition gpx_elem (pts : list ET.Element) : ET.Element :=
  ET.Elem (ET.qname gpx_parser.ns "gpx" "gpx") ∅ None
    [ET.Elem (ET.qname gpx_parser.ns "gpx" "trk") ∅ None
       [ET.Elem (ET.qname gpx_parser.ns "gpx" "name") ∅ (Some "Morning run") [];
        ET.Elem (ET.qname gpx_parser.ns "gpx" "trkseg") ∅ None pts]].

Definition five_points : ET.Element :=
  gpx_elem [trkpt_elem "1.5" "103.25" (Some "10"); trkpt_elem "1.25" "103.5" None;
            trkpt_elem "-2" "104" (Some "7.5"); trkpt_elem "3" "100" None;
            trkpt_elem "2.75" "101" (Some "1")].

Definition track_files : gmap string ET.file :=
  {[ "run.gpx" := ET.Document five_points; "broken.gpx" := ET.Malformed ]}.

(** A track whose second point has no latitude. *)
Definition no_latitude : ET.Element :=
  gpx_elem [trkpt_elem "1.5" "103.25" (Some "10");
            ET.Elem (ET.qname gpx_parser.ns "gpx" "trkpt") {[ "lon" := "103.5" ]} None [];
            trkpt_elem "3" "100" None].

Definition broken_files : gmap string ET.file :=
  {[ "nolat.gpx" := ET.Document no_latitude; "broken.gpx" := ET.Malformed ]}.

(** ** A small Pillow

    Nearest-neighbour resampling, no blurring, and the plainest conversions
    and encoders: enough to run the extractors on concrete images. *)

Definition nearest (img : Image.image) (size : Z * Z) : result Image.image :=
  if (size.1 <? 1) || (size.2 <? 1) then Raise ValueError
  else Ok {| Image.mode := Image.mode img;
             Image.width := size.1;
             Image.height := size.2;
             Image.pixels :=
               (fun y =>
                  (fun x => default [] (Image.getpixel img (x * Image.width img / size.1)
                                                           (y * Image.height img / size.2)))
                  <$> seqZ 0 size.1)
               <$> seqZ 0 size.2 |}.

Definition recolour (img : Image.image) (m : string) : Image.image :=
  {| Image.mode := m;
     Image.width := Image.width img;
     Image.height := Image.height img;
     Image.pixels :=
       map (map (fun p =>
                   match p with
                   | [v] => if bool_decide (m = "RGB") then [v; v; v] else p
                   | [r; g; b] =>
                       if bool_decide (m = "L") then [(299 * r + 587 * g + 114 * b) / 1000] else p
                   | _ => p
                   end))
           (Image.pixels img) |}.

Definition raw_bytes (img : Image.image) (format : string) (quality : option Z) : list Z :=
  concat (concat (Image.pixels img)).

Definition text_of_bytes (bytes : list Z) : string :=
  String.string_of_list_ascii (map (fun b => Ascii.ascii_of_N (Z.to_N b)) bytes).

#[global, refine] Instance small_pillow : Image.Pillow := {
  Image.resize := nearest;
  Image.convert := recolour;
  Image.GaussianBlur img r := img;
  Image.save := raw_bytes;
  Image.b64encode := text_of_bytes
}.
Proof.
  - intros img w h Hw Hh. unfold nearest. simpl.
    destruct (Z.ltb_spec w 1); [lia|]. destruct (Z.ltb_spec h 1); [lia|]. simpl.
    eexists. split; [done|]. split; [done|]. split; [done|].
    split_and!; simpl.
    + lia.
    + rewrite length_fmap, length_seqZ. lia.
    + apply Forall_fmap, Forall_forall. intros y _. simpl.
      rewrite length_fmap, length_seqZ. lia.
  - intros img m (H0 & Hh & Hw). split; [done|]. split; [done|]. split_and!; simpl.
    + done.
    + by rewrite length_map.
    + apply Forall_fmap. eapply Forall_impl; [exact Hw|]. intros row Hrow. simpl.
      by rewrite length_map.
  - done.
Defined.

#[global] Instance wf_dec img : Decision (Image.wf img).
Proof. unfold Image.wf. apply _. Defined.

(** ** Images and rasters *)

(** A greyscale ramp of the given size. *)
Definition ramp (w h : Z) : Image.image :=
  {| Image.mode := "L";
     Image.width := w;
     Image.height := h;
     Image.pixels := (fun y => (fun x => [(x + y) `mod` 256]) <$> seqZ 0 w) <$> seqZ 0 h |}.

(** Three 8-bit bands of two rows and two columns. *)
Definition small_rgb : np.ndarray Q :=
  np.uint8 [[[10; 20]; [30; 40]]; [[50; 60]; [70; 80]]; [[90; 100]; [110; 120]]].

Definition small_raster : rasterio.DatasetReader Q :=
  {| rasterio.crs := "EPSG:32648";
     rasterio.bounds := (0, 0, 2, 2)%Q;
     rasterio.nodata := None;
     rasterio.read := small_rgb |}.

(** * Properties *)

(** ** Python builtins *)

Lemma range_up_closed fuel i stop step :
  0 < step -> (Z.to_nat (stop - i) <= fuel)%nat ->
  range_up fuel i stop step
  = (fun k => i + step * k) <$> seqZ 0 ((stop - i + step - 1) / step).
Proof.
  intros Hstep. revert i. induction fuel as [|fuel IH]; intros i Hfuel; simpl.
  - rewrite seqZ_nil; [done|].
    apply Z.lt_succ_r, Z.div_lt_upper_bound; lia.
  - destruct (Z.ltb_spec i stop) as [Hlt|Hge].
    + assert (Hn : (stop - i + step - 1) / step = (stop - (i + step) + step - 1) / step + 1).
      { rewrite <- (Z.div_add _ 1 step) by lia. f_equal. lia. }
      assert (0 <= (stop - (i + step) + step - 1) / step).
      { apply Z.div_pos; lia. }
      rewrite seqZ_cons by lia. rewrite fmap_cons. f_equal; [lia|].
      rewrite IH by lia. rewrite Hn.
      replace (Z.pred (_ + 1)) with ((stop - (i + step) + step - 1) / step) by lia.
      rewrite <- (fmap_add_seqZ 1 0), <- list_fmap_compose.
      apply list_fmap_ext. intros _ k _. simpl. lia.
    + rewrite seqZ_nil; [done|].
      apply Z.lt_succ_r, Z.div_lt_upper_bound; lia.
Qed.

Lemma py_range_from_zero n step :
  0 <= n -> 1 <= step ->
  py_range 0 n step = Ok ((fun k => step * k) <$> seqZ 0 ((n + step - 1) / step)).
Proof.
  intros Hn Hstep. unfold py_range.
  destruct (Z.eqb_spec step 0); [lia|].
  destruct (Z.ltb_spec 0 step); [|lia].
  rewrite range_up_closed by lia.
  f_equal. rewrite Z.sub_0_r. apply list_fmap_ext. intros _ k _. simpl. lia.
Qed.

Lemma py_index_lookup {A} (l : list A) (i : Z) :
  0 <= i < Z.of_nat (length l) ->
  exists x, py_index l i = Ok x /\ l !! Z.to_nat i = Some x.
Proof.
  intros Hi. unfold py_index.
  destruct (Z.ltb_spec i 0); [lia|].
  destruct (Z.ltb_spec i 0); [lia|].
  destruct (Z.leb_spec (Z.of_nat (length l)) i); [lia|]. simpl.
  destruct (lookup_lt_is_Some_2 l (Z.to_nat i)) as [x Hx]; [lia|].
  exists x. by rewrite Hx.
Qed.

Lemma py_index_last {A} (l : list A) :
  l <> [] -> exists x, py_index l (-1) = Ok x /\ last l = Some x.
Proof.
  intros Hne. unfold py_index.
  assert (0 < length l)%nat by (destruct l; simpl; [done|lia]).
  destruct (Z.ltb_spec (-1) 0); [|lia].
  destruct (Z.ltb_spec (-1 + Z.of_nat (length l)) 0); [lia|].
  destruct (Z.leb_spec (Z.of_nat (length l)) (-1 + Z.of_nat (length l))); [lia|]. simpl.
  rewrite last_lookup.
  replace (Z.to_nat (-1 + Z.of_nat (length l))) with (Init.Nat.pred (length l)) by lia.
  destruct (lookup_lt_is_Some_2 l (Init.Nat.pred (length l))) as [x Hx]; [lia|].
  exists x. by rewrite Hx.
Qed.

(** ** Decimation of a track *)

Section decimation.
Context {F : Type} {FF : Float F}.
Import gpx_parser.

Lemma length_samples (lats lons eles : list F) :
  length lons = length lats -> length eles = length lats ->
  length (samples lats lons eles) = length lats.
Proof.
  intros H1 H2. unfold samples. rewrite length_zip_with, length_zip. lia.
Qed.

Lemma lookup_samples (lats lons eles : list F) i la lo el :
  lats !! i = Some la -> lons !! i = Some lo -> eles !! i = Some el ->
  samples lats lons eles !! i = Some {| lat := la; lon := lo; ele := el |}.
Proof.
  intros Hla Hlo Hel. unfold samples.
  apply lookup_zip_with_Some. exists la, (lo, el). split; [done|]. split; [done|].
  apply lookup_zip_with_Some. by exists lo, el.
Qed.

Lemma keep_point_in_range (lats lons eles : list F) pts i :
  length lons = length lats -> length eles = length lats ->
  0 <= i < Z.of_nat (length lats) ->
  exists p, keep_point lats lons eles pts i = Ok (pts ++ [p]) /\
            samples lats lons eles !! Z.to_nat i = Some p.
Proof.
  intros H1 H2 Hi. unfold keep_point.
  destruct (py_index_lookup lats i) as (la & -> & Hla); [lia|].
  destruct (py_index_lookup lons i) as (lo & -> & Hlo); [lia|].
  destruct (py_index_lookup eles i) as (el & -> & Hel); [lia|].
  simpl. eexists. split; [done|]. by apply lookup_samples.
Qed.

Lemma keep_point_last (lats lons eles : list F) pts :
  length lons = length lats -> length eles = length lats -> lats <> [] ->
  exists p, keep_point lats lons eles pts (-1) = Ok (pts ++ [p]) /\
            last (samples lats lons eles) = Some p.
Proof.
  intros H1 H2 Hne. unfold keep_point.
  assert (lons <> []) by (destruct lons, lats; simpl in *; congruence).
  assert (eles <> []) by (destruct eles, lats; simpl in *; congruence).
  destruct (py_index_last lats) as (la & -> & Hla); [done|].
  destruct (py_index_last lons) as (lo & -> & Hlo); [done|].
  destruct (py_index_last eles) as (el & -> & Hel); [done|].
  simpl. eexists. split; [done|].
  rewrite last_lookup in Hla. rewrite last_lookup in Hlo. rewrite last_lookup in Hel.
  rewrite last_lookup, length_samples by done.
  rewrite H1 in Hlo. rewrite H2 in Hel. by apply lookup_samples.
Qed.

Lemma for_each_keep_point (lats lons eles : list F) idxs pts :
  length lons = length lats -> length eles = length lats ->
  Forall (fun i => 0 <= i < Z.of_nat (length lats)) idxs ->
  exists kept, for_each idxs (keep_point lats lons eles) pts = Ok (pts ++ kept) /\
               Forall2 (fun i p => samples lats lons eles !! Z.to_nat i = Some p) idxs kept.
Proof.
  intros H1 H2 Hall. revert pts. induction Hall as [|i idxs Hi _ IH]; intros pts; simpl.
  - exists []. by rewrite app_nil_r.
  - destruct (keep_point_in_range lats lons eles pts i) as (p & -> & Hp); [done..|].
    simpl. destruct (IH (pts ++ [p])) as (kept & -> & Hkept).
    exists (p :: kept). rewrite <- app_assoc. split; [done|]. by constructor.
Qed.

Lemma simplify_spec (lats lons eles : list F) s :
  length lons = length lats -> length eles = length lats -> 1 <= s ->
  exists pts, simplify lats lons eles s = Ok pts /\
    Z.of_nat (length pts) = kept_count (Z.of_nat (length lats)) s /\
    last pts = last (samples lats lons eles).
Proof.
  intros H1 H2 Hs. unfold simplify, kept_count.
  set (n := Z.of_nat (length lats)).
  rewrite py_range_from_zero by lia. simpl.
  set (m := (n + s - 1) / s).
  assert (Hm : 0 <= m) by (apply Z.div_pos; lia).
  assert (Hms : n <= s * m < n + s).
  { pose proof (Z.div_mod (n + s - 1) s ltac:(lia)).
    pose proof (Z.mod_pos_bound (n + s - 1) s ltac:(lia)). lia. }
  destruct (for_each_keep_point lats lons eles ((fun k => s * k) <$> seqZ 0 m) [])
    as (kept & -> & Hkept); [done..| |].
  { apply Forall_fmap, Forall_seqZ. intros k Hk. simpl. fold n. nia. }
  simpl.
  assert (Hlen : Z.of_nat (length kept) = m).
  { rewrite <- (Forall2_length _ _ _ Hkept), length_fmap, length_seqZ. lia. }
  destruct (Z.ltb_spec 0 n) as [Hpos|Hzero]; simpl.
  - assert (lats <> []) by (intros ->; simpl in *; lia).
    destruct (Z.eqb_spec ((n - 1) `mod` s) 0) as [Hmod|Hmod]; simpl.
    + eexists. split; [done|]. split; [lia|].
      (* the last index of the strided pass is n - 1 *)
      assert (Hlast : s * (m - 1) = n - 1).
      { apply Z.mod_divide in Hmod as [q Hq]; [|lia].
        assert (q < m) by nia. assert (m < q + 2) by nia.
        replace m with (q + 1) by lia. lia. }
      assert (Hm1 : 0 < m) by nia.
      assert (Hidx : last ((fun k => s * k) <$> seqZ 0 m) = Some (n - 1)).
      { rewrite fmap_last, last_lookup, length_seqZ.
        rewrite lookup_seqZ_lt by lia. simpl. f_equal. rewrite <- Hlast. f_equal. lia. }
      rewrite last_lookup in Hidx. rewrite length_fmap, length_seqZ in Hidx.
      rewrite !last_lookup, length_samples by done.
      assert (Hk : length kept = Z.to_nat m) by lia.
      eapply Forall2_lookup_l in Hkept as (p & Hp & Hsp); [|exact Hidx].
      rewrite Hk, Hp, <- Hsp. f_equal. unfold n. lia.
    + destruct (keep_point_last lats lons eles kept) as (p & -> & Hp); [done..|].
      eexists. split; [done|]. rewrite length_app, last_snoc. simpl. split; [lia|done].
  - assert (lats = []) as -> by (destruct lats; simpl in *; [done|lia]).
    destruct lons; [|done]. destruct eles; [|done].
    assert (m = 0) by (subst n; simpl in *; nia).
    eexists. split; [done|]. split; [lia|].
    destruct kept; [done|]. simpl in *. lia.
Qed.

Lemma kept_count_ceiling n s :
  1 <= s ->
  kept_count n s
  = Qceiling (inject_Z n / inject_Z s)
    + (if bool_decide ((n - 1) `mod` s <> 0 /\ 0 < n) then 1 else 0).
Proof.
  intros Hs. unfold kept_count. f_equal.
  - unfold Qceiling.
    rewrite (Qfloor_comp _ (inject_Z (- n) / inject_Z s)).
    + rewrite <- Zdiv_Qdiv.
      pose proof (Z.div_mod (n + s - 1) s ltac:(lia)).
      pose proof (Z.mod_pos_bound (n + s - 1) s ltac:(lia)).
      pose proof (Z.div_mod (- n) s ltac:(lia)).
      pose proof (Z.mod_pos_bound (- n) s ltac:(lia)).
      nia.
    + rewrite inject_Z_opp. unfold Qdiv. ring.
  - destruct (Z.ltb_spec 0 n), (Z.eqb_spec ((n - 1) `mod` s) 0); simpl;
      case_bool_decide; try done; lia.
Qed.

Lemma read_trkpts_lengths pts acc lats lons eles :
  for_each pts read_trkpt acc = Ok (lats, lons, eles) ->
  length acc.1.2 = length acc.1.1 -> length acc.2 = length acc.1.1 ->
  length lons = length lats /\ length eles = length lats.
Proof.
  revert acc. induction pts as [|trkpt pts IH]; intros [[a b] c]; simpl.
  - intros [= -> -> ->]. done.
  - destruct (py_float (ET.get trkpt "lat")) as [la|]; [simpl|done].
    destruct (py_float (ET.get trkpt "lon")) as [lo|]; [simpl|done].
    destruct (match ET.find trkpt ns "gpx" "ele" with
              | Some ele_elem => py_float (ET.text ele_elem)
              | None => Ok (of_int 0)
              end) as [el|]; [simpl|done].
    intros Hrest Hb Hc. apply (IH _ Hrest); simpl; rewrite !length_app; simpl; lia.
Qed.

Lemma extent_total (lats lons eles : list F) :
  length lons = length lats -> length eles = length lats ->
  exists b er, extent lats lons eles = Ok (b, er).
Proof.
  intros H1 H2. unfold extent.
  destruct lats, lons, eles; simpl in *; try lia; eauto.
Qed.

Lemma parse_gpx_run fs file_path root lats lons eles s pts b er :
  fs !! file_path = Some (ET.Document root) ->
  read_trkpts root = Ok (lats, lons, eles) ->
  simplify lats lons eles s = Ok pts ->
  extent lats lons eles = Ok (b, er) ->
  exists t, run (parse_gpx fs file_path s) = (Ok t, [Opened file_path]) /\
    points t = pts /\ track_bounds t = b /\ track_elevation_range t = er /\
    total_points t = Z.of_nat (length lats) /\
    simplified_points t = Z.of_nat (length pts).
Proof.
  intros Hfs Hread Hsimplify Hextent.
  unfold run, parse_gpx, mbind, io_bind, ET.parse, lift. rewrite Hfs. simpl.
  rewrite Hread. simpl. rewrite Hsimplify. simpl. rewrite Hextent. simpl.
  eexists. split; [done|]. done.
Qed.

End decimation.

(** C3. For a track of [count] points and a stride [s >= 1], the decimated
    output has [ceil(count / s)] points, and exactly one more if and only if
    [(count - 1) mod s <> 0] and [count > 0]; [simplified_points] reports that
    length and [total_points] reports [count]. *)
Theorem decimated_length {F : Type} {FF : Float F} fs file_path root lats lons eles s :
  fs !! file_path = Some (ET.Document root) ->
  gpx_parser.read_trkpts root = Ok (lats, lons, eles) ->
  1 <= s ->
  let count := Z.of_nat (length lats) in
  exists t, run (gpx_parser.parse_gpx fs file_path s) = (Ok t, [Opened file_path]) /\
    gpx_parser.total_points t = count /\
    gpx_parser.simplified_points t = Z.of_nat (length (gpx_parser.points t)) /\
    Z.of_nat (length (gpx_parser.points t))
    = Qceiling (inject_Z count / inject_Z s)
      + (if bool_decide ((count - 1) `mod` s <> 0 /\ 0 < count) then 1 else 0).
Proof.
  intros Hfs Hread Hs count.
  destruct (read_trkpts_lengths _ _ _ _ _ Hread) as [H1 H2]; [done..|].
  destruct (simplify_spec lats lons eles s) as (pts & Hpts & Hlen & _); [done..|].
  destruct (extent_total lats lons eles) as (b & er & Hext); [done..|].
  destruct (parse_gpx_run fs file_path root lats lons eles s pts b er)
    as (t & Hrun & Hp & _ & _ & Htotal & Hsimplified); [done..|].
  exists t. rewrite Hp. repeat split; try done.
  rewrite Hlen. by apply kept_count_ceiling.
Qed.

Lemma decimated_length_witness :
  exists t, run (@gpx_parser.parse_gpx Q exact track_files "run.gpx" 3)
            = (Ok t, [Opened "run.gpx"]) /\
    gpx_parser.total_points t = 5 /\
    gpx_parser.simplified_points t = 3 /\
    Z.of_nat (length (gpx_parser.points t)) = 3.
Proof.
  destruct (@decimated_length Q exact track_files "run.gpx" five_points
              [1.5; 1.25; -2; 3; 2.75]%Q [103.25; 103.5; 104; 100; 101]%Q
              [10; 0; 7.5; 0; 1]%Q 3)
    as (t & Hrun & Htotal & Hsimplified & Hlen); [reflexivity | reflexivity | lia |].
  exists t. split; [exact Hrun|]. split; [exact Htotal|].
  split; [rewrite Hsimplified|]; exact Hlen.
Defined.

(** C2. For a non-empty track and a stride [s >= 1], the last point of the
    decimated output is the last point of the source track. *)
Theorem decimated_last {F : Type} {FF : Float F} fs file_path root lats lons eles s :
  fs !! file_path = Some (ET.Document root) ->
  gpx_parser.read_trkpts root = Ok (lats, lons, eles) ->
  0 < Z.of_nat (length lats) ->
  1 <= s ->
  exists t la lo el,
    run (gpx_parser.parse_gpx fs file_path s) = (Ok t, [Opened file_path]) /\
    last lats = Some la /\ last lons = Some lo /\ last eles = Some el /\
    last (gpx_parser.points t)
    = Some {| gpx_parser.lat := la; gpx_parser.lon := lo; gpx_parser.ele := el |}.
Proof.
  intros Hfs Hread Hcount Hs.
  destruct (read_trkpts_lengths _ _ _ _ _ Hread) as [H1 H2]; [done..|].
  destruct (simplify_spec lats lons eles s) as (pts & Hpts & _ & Hlast); [done..|].
  destruct (extent_total lats lons eles) as (b & er & Hext); [done..|].
  destruct (parse_gpx_run fs file_path root lats lons eles s pts b er)
    as (t & Hrun & Hp & _); [done..|].
  assert (Hne : lats <> []) by (intros ->; simpl in Hcount; lia).
  destruct (keep_point_last lats lons eles []) as (p & Hkeep & Hp'); [done..|].
  destruct (py_index_last lats Hne) as (la & Hla & Hla').
  assert (lons <> []) as Hlons by (destruct lons, lats; simpl in *; congruence).
  assert (eles <> []) as Heles by (destruct eles, lats; simpl in *; congruence).
  destruct (py_index_last lons Hlons) as (lo & Hlo & Hlo').
  destruct (py_index_last eles Heles) as (el & Hel & Hel').
  exists t, la, lo, el. repeat split; try done.
  rewrite Hp, Hlast, Hp'. f_equal.
  unfold gpx_parser.keep_point in Hkeep. rewrite Hla, Hlo, Hel in Hkeep. simpl in Hkeep.
  by injection Hkeep as <-.
Qed.

Lemma decimated_last_witness :
  exists t, run (@gpx_parser.parse_gpx Q exact track_files "run.gpx" 3)
            = (Ok t, [Opened "run.gpx"]) /\
    last (gpx_parser.points t)
    = Some {| gpx_parser.lat := 2.75%Q; gpx_parser.lon := 101%Q; gpx_parser.ele := 1%Q |}.
Proof.
  destruct (@decimated_last Q exact track_files "run.gpx" five_points
              [1.5; 1.25; -2; 3; 2.75]%Q [103.25; 103.5; 104; 100; 101]%Q
              [10; 0; 7.5; 0; 1]%Q 3)
    as (t & la & lo & el & Hrun & Hla & Hlo & Hel & Hlast);
    [reflexivity | reflexivity | simpl; lia | lia |].
  exists t. split; [exact Hrun|].
  injection Hla as <-. injection Hlo as <-. injection Hel as <-. exact Hlast.
Defined.

(** ** Extent of a track *)

Lemma Qltb_lt (x y : Q) : Qltb x y = true <-> (x < y)%Q.
Proof.
  unfold Qltb. rewrite Qlt_alt. destruct (x ?= y)%Q; split; congruence.
Qed.

Lemma Qltb_ge (x y : Q) : Qltb x y = false <-> (y <= x)%Q.
Proof.
  split.
  - intros Hf. destruct (Qlt_le_dec x y) as [Hlt|Hle]; [|done].
    apply Qltb_lt in Hlt. congruence.
  - intros Hle. destruct (Qltb x y) eqn:E; [|done].
    apply Qltb_lt in E. exfalso. by eapply Qlt_not_le.
Qed.

Section extent.
Variable rnd : Q -> Q.
Local Abbreviation fl := (rounded rnd).

Lemma max_from_maximum xs x : maximum_of (x :: xs) (@max_from Q fl x xs).
Proof.
  revert x. induction xs as [|y xs IH]; intros x; simpl.
  - split; [left|]. intros z ->%list_elem_of_singleton. apply Qle_refl.
  - destruct (IH (if Qltb x y then y else x)) as [Hmem Hle].
    fold (@max_from Q fl (if Qltb x y then y else x) xs) in *.
    assert (Hx : (x <= if Qltb x y then y else x)%Q).
    { destruct (Qltb x y) eqn:Hxy; [|apply Qle_refl]. by apply Qlt_le_weak, Qltb_lt. }
    assert (Hy : (y <= if Qltb x y then y else x)%Q).
    { destruct (Qltb x y) eqn:Hxy; [apply Qle_refl|]. by apply Qltb_ge. }
    split.
    + apply elem_of_cons in Hmem as [->|Hmem].
      * destruct (Qltb x y); [right; left|left].
      * by do 2 right.
    + intros z [->|[->|Hz]%elem_of_cons]%elem_of_cons.
      * eapply Qle_trans; [exact Hx|]. apply Hle. left.
      * eapply Qle_trans; [exact Hy|]. apply Hle. left.
      * apply Hle. by right.
Qed.

Lemma min_from_minimum xs x : minimum_of (x :: xs) (@min_from Q fl x xs).
Proof.
  revert x. induction xs as [|y xs IH]; intros x; simpl.
  - split; [left|]. intros z ->%list_elem_of_singleton. apply Qle_refl.
  - destruct (IH (if Qltb y x then y else x)) as [Hmem Hle].
    fold (@min_from Q fl (if Qltb y x then y else x) xs) in *.
    assert (Hx : ((if Qltb y x then y else x) <= x)%Q).
    { destruct (Qltb y x) eqn:Hxy; [|apply Qle_refl]. by apply Qlt_le_weak, Qltb_lt. }
    assert (Hy : ((if Qltb y x then y else x) <= y)%Q).
    { destruct (Qltb y x) eqn:Hxy; [apply Qle_refl|]. by apply Qltb_ge. }
    split.
    + apply elem_of_cons in Hmem as [->|Hmem].
      * destruct (Qltb y x); [right; left|left].
      * by do 2 right.
    + intros z [->|[->|Hz]%elem_of_cons]%elem_of_cons.
      * eapply Qle_trans; [|exact Hx]. apply Hle. left.
      * eapply Qle_trans; [|exact Hy]. apply Hle. left.
      * apply Hle. by right.
Qed.

Lemma minimum_le_maximum l lo hi : minimum_of l lo -> maximum_of l hi -> (lo <= hi)%Q.
Proof. intros [Hlo _] [_ Hhi]. by apply Hhi. Qed.

Lemma py_max_maximum l : l <> [] -> exists m, @py_max Q fl l = Ok m /\ maximum_of l m.
Proof. destruct l as [|x xs]; [done|]. intros _. eexists. split; [done|]. apply max_from_maximum. Qed.

Lemma py_min_minimum l : l <> [] -> exists m, @py_min Q fl l = Ok m /\ minimum_of l m.
Proof. destruct l as [|x xs]; [done|]. intros _. eexists. split; [done|]. apply min_from_minimum. Qed.


End extent.


(** ** Failures of track parsing *)

Section failures.
Context {F : Type} {FF : Float F}.
Import gpx_parser.

Lemma for_each_app {A S} (xs ys : list A) (body : S -> A -> result S) (s : S) :
  for_each (xs ++ ys) body s = s' ← for_each xs body s; for_each ys body s'.
Proof.
  revert s. induction xs as [|x xs IH]; intros s; simpl; [done|].
  destruct (body s x); simpl; [apply IH|done].
Qed.

Lemma py_float_raises (x : option string) e :
  py_float (F:=F) x = Raise e -> e = TypeError \/ e = ValueError.
Proof.
  unfold py_float. destruct x as [str|]; [destruct (of_str str)|]; intros [= <-]; auto.
Qed.

Lemma read_trkpt_raises acc trkpt e :
  read_trkpt (F:=F) acc trkpt = Raise e -> e = TypeError \/ e = ValueError.
Proof.
  destruct acc as [[a b] c]. unfold read_trkpt.
  destruct (py_float (ET.get trkpt "lat")) eqn:Hlat; simpl; [|intros [= <-]; eauto using py_float_raises].
  destruct (py_float (ET.get trkpt "lon")) eqn:Hlon; simpl; [|intros [= <-]; eauto using py_float_raises].
  destruct (ET.find trkpt ns "gpx" "ele") as [ele_elem|]; simpl; [|done].
  destruct (py_float (ET.text ele_elem)) eqn:Hele; simpl; [done|].
  intros [= <-]; eauto using py_float_raises.
Qed.

Lemma read_trkpt_missing acc trkpt :
  ET.get trkpt "lat" = None \/ ET.get trkpt "lon" = None ->
  exists e, read_trkpt (F:=F) acc trkpt = Raise e.
Proof.
  destruct acc as [[a b] c]. unfold read_trkpt. intros [-> | ->]; simpl; [eauto|].
  destruct (py_float (ET.get trkpt "lat")); simpl; eauto.
Qed.

(** The first track point that cannot be read has no latitude, or a
    latitude that is a number and no longitude. *)
Lemma read_trkpt_TypeError acc trkpt :
  ET.get trkpt "lat" = None \/
  ((exists la, py_float (F:=F) (ET.get trkpt "lat") = Ok la) /\ ET.get trkpt "lon" = None) ->
  read_trkpt (F:=F) acc trkpt = Raise TypeError.
Proof.
  destruct acc as [[a b] c]. unfold read_trkpt. intros [-> | [[la ->] ->]]; done.
Qed.

Lemma for_each_read_raises pts acc e :
  for_each pts (read_trkpt (F:=F)) acc = Raise e -> e = TypeError \/ e = ValueError.
Proof.
  revert acc. induction pts as [|p pts IH]; intros acc; simpl; [done|].
  destruct (read_trkpt acc p) eqn:Hp; simpl; [apply IH|].
  intros [= <-]. by eapply read_trkpt_raises.
Qed.

Lemma for_each_read_missing pts acc trkpt :
  trkpt ∈ pts ->
  ET.get trkpt "lat" = None \/ ET.get trkpt "lon" = None ->
  exists e, for_each pts (read_trkpt (F:=F)) acc = Raise e.
Proof.
  intros Hmem Hmissing. revert acc.
  induction Hmem as [trkpt pts|trkpt p pts _ IH]; intros acc; simpl.
  - destruct (read_trkpt_missing acc trkpt Hmissing) as [e ->]. simpl. eauto.
  - destruct (read_trkpt acc p); simpl; eauto.
Qed.

Lemma parse_gpx_raises fs file_path root s e :
  fs !! file_path = Some (ET.Document root) ->
  read_trkpts (F:=F) root = Raise e ->
  run (parse_gpx (F:=F) fs file_path s) = (Raise e, [Opened file_path]).
Proof.
  intros Hfs Hread.
  unfold run, parse_gpx, mbind, io_bind, ET.parse, lift. rewrite Hfs. simpl.
  by rewrite Hread.
Qed.

(** C9, as the code has it.  Parsing a malformed source fails, and the caller
    gets the failure and nothing else: a document that is not well-formed
    fails with [ParseError]; a document with a track point that has no
    latitude or no longitude fails with [TypeError], from [float] applied to
    the absent attribute, when no earlier number is unreadable, and with
    [TypeError] or [ValueError] in any case. *)
Theorem malformed_source_fails fs file_path s :
  (fs !! file_path = Some ET.Malformed ->
   run (parse_gpx (F:=F) fs file_path s) = (Raise ParseError, [Opened file_path])) /\
  (forall root before trkpt after acc,
     fs !! file_path = Some (ET.Document root) ->
     ET.findall_descendants root ns "gpx" "trkpt" = before ++ trkpt :: after ->
     for_each before (read_trkpt (F:=F)) ([], [], []) = Ok acc ->
     ET.get trkpt "lat" = None \/
     ((exists la, py_float (F:=F) (ET.get trkpt "lat") = Ok la) /\ ET.get trkpt "lon" = None) ->
     run (parse_gpx (F:=F) fs file_path s) = (Raise TypeError, [Opened file_path])) /\
  (forall root trkpt,
     fs !! file_path = Some (ET.Document root) ->
     trkpt ∈ ET.findall_descendants root ns "gpx" "trkpt" ->
     ET.get trkpt "lat" = None \/ ET.get trkpt "lon" = None ->
     exists e, run (parse_gpx (F:=F) fs file_path s) = (Raise e, [Opened file_path]) /\
               (e = TypeError \/ e = ValueError)).
Proof.
  split_and!.
  - intros Hfs. unfold run, parse_gpx, mbind, io_bind, ET.parse. by rewrite Hfs.
  - intros root before trkpt after acc Hfs Hpts Hbefore Hmissing.
    apply (parse_gpx_raises _ _ root); [done|].
    unfold read_trkpts. rewrite Hpts, for_each_app, Hbefore. simpl.
    by rewrite read_trkpt_TypeError.
  - intros root trkpt Hfs Hmem Hmissing.
    destruct (for_each_read_missing _ ([], [], []) trkpt Hmem Hmissing) as [e He].
    exists e. split; [by apply (parse_gpx_raises _ _ root)|].
    by eapply for_each_read_raises.
Qed.

End failures.

Lemma malformed_source_fails_witness :
  run (@gpx_parser.parse_gpx Q exact broken_files "broken.gpx" 10)
  = (Raise ParseError, [Opened "broken.gpx"]) /\
  run (@gpx_parser.parse_gpx Q exact broken_files "nolat.gpx" 10)
  = (Raise TypeError, [Opened "nolat.gpx"]).
Proof.
  split.
  - apply (malformed_source_fails (FF:=exact) broken_files "broken.gpx" 10). reflexivity.
  - destruct (malformed_source_fails (FF:=exact) broken_files "nolat.gpx" 10) as (_ & Hfirst & _).
    apply (Hfirst no_latitude [trkpt_elem "1.5" "103.25" (Some "10")]
             (ET.Elem (ET.qname gpx_parser.ns "gpx" "trkpt") {[ "lon" := "103.5" ]} None [])
             [trkpt_elem "3" "100" None] ([1.5%Q], [103.25%Q], [10%Q]));
      [reflexivity | reflexivity | reflexivity | left; reflexivity].
Defined.

(** C9, as stated, fails on the track whose second point has no latitude:
    [parse_gpx] fails with [TypeError], not with [ParseError]. *)
Lemma missing_latitude_is_TypeError :
  ET.Elem (ET.qname gpx_parser.ns "gpx" "trkpt") {[ "lon" := "103.5" ]} None []
    ∈ ET.findall_descendants no_latitude gpx_parser.ns "gpx" "trkpt" /\
  run (@gpx_parser.parse_gpx Q exact broken_files "nolat.gpx" 10)
  = (Raise TypeError, [Opened "nolat.gpx"]) /\
  run (@gpx_parser.parse_gpx Q exact broken_files "nolat.gpx" 10)
  <> (Raise ParseError, [Opened "nolat.gpx"]).
Proof.
  split; [|split].
  - vm_compute. right. left.
  - reflexivity.
  - assert (Hrun : run (@gpx_parser.parse_gpx Q exact broken_files "nolat.gpx" 10)
                   = (Raise TypeError, [Opened "nolat.gpx"])) by reflexivity.
    rewrite Hrun. discriminate.
Qed.

(** ** The capability check *)

(** C8. Without rasterio, raster extraction fails with the [RuntimeError] of
    line 36, the failure the specification calls ConfigurationError, and the
    trace of opened files is the one it started from: the check comes
    before any file is opened.  With rasterio, the first thing extraction
    does is open the file. *)
Theorem missing_rasterio_fails {F : Type} {FF : Float F} {PIL : Image.Pillow}
    (transform_bounds : string -> string -> F * F * F * F -> F * F * F * F)
    (fs : gmap string (rasterio.DatasetReader F)) (file_path : string) (t : list event) :
  terrain.extract_geotiff_data false transform_bounds fs file_path t
  = (Raise (RuntimeError "rasterio required for GeoTIFF processing"), t) /\
  exists r, terrain.extract_geotiff_data true transform_bounds fs file_path t
            = (r, t ++ [Opened file_path]).
Proof.
  split; [done|].
  unfold terrain.extract_geotiff_data, mbind, io_bind, rasterio.open, lift. simpl.
  destruct (fs !! file_path) as [src|]; [|eauto].
  destruct (transform_bounds _ _ _) as [[[w s] e] n].
  destruct (terrain.normalize src) as [[img original]|]; simpl; eauto.
Qed.

(** ** Squaring a heightmap *)

Lemma getpixel_wf img x y :
  Image.wf img ->
  is_Some (Image.getpixel img x y) <-> 0 <= x < Image.width img /\ 0 <= y < Image.height img.
Proof.
  intros (H0 & Hh & Hw). unfold Image.getpixel.
  destruct (Z.ltb_spec x 0); simpl.
  { split; [by intros [? ?]|lia]. }
  destruct (Z.ltb_spec y 0); simpl.
  { split; [by intros [? ?]|lia]. }
  destruct (Image.pixels img !! Z.to_nat y) as [row|] eqn:Hrow; simpl.
  - assert (Z.of_nat (length row) = Image.width img).
    { eapply Forall_forall in Hw; [exact Hw|]. by eapply list_elem_of_lookup_2. }
    apply lookup_lt_Some in Hrow. rewrite lookup_lt_is_Some. lia.
  - apply lookup_ge_None in Hrow. split; [by intros [? ?]|lia].
Qed.

Lemma new_wf mode w h color : 0 <= w -> 0 <= h -> Image.wf (Image.new mode (w, h) color).
Proof.
  intros Hw Hh. split_and!; simpl.
  - done.
  - rewrite length_replicate. lia.
  - apply Forall_replicate. rewrite length_replicate. lia.
Qed.

Lemma getpixel_new mode w h color x y :
  0 <= x < w -> 0 <= y < h -> Image.getpixel (Image.new mode (w, h) color) x y = Some [color].
Proof.
  intros Hx Hy. unfold Image.getpixel, Image.new. simpl.
  destruct (Z.ltb_spec x 0); [lia|]. destruct (Z.ltb_spec y 0); [lia|]. simpl.
  rewrite lookup_replicate_2 by lia. simpl. by rewrite lookup_replicate_2 by lia.
Qed.

Lemma paste_wf canvas img box : Image.wf canvas -> Image.wf (Image.paste canvas img box).
Proof.
  intros (H0 & Hh & Hw). split_and!; simpl.
  - done.
  - by rewrite length_imap.
  - apply Forall_forall. intros row (i & r & -> & Hr)%elem_of_lookup_imap.
    rewrite length_imap. eapply Forall_forall in Hw; [exact Hw|].
    by eapply list_elem_of_lookup_2.
Qed.

Lemma getpixel_nonneg img x y :
  0 <= x -> 0 <= y ->
  Image.getpixel img x y = row ← Image.pixels img !! Z.to_nat y; row !! Z.to_nat x.
Proof.
  intros Hx Hy. unfold Image.getpixel.
  destruct (Z.ltb_spec x 0); [lia|]. by destruct (Z.ltb_spec y 0); [lia|].
Qed.

Lemma getpixel_paste canvas img ox oy x y :
  0 <= x -> 0 <= y ->
  Image.getpixel (Image.paste canvas img (ox, oy)) x y
  = c ← Image.getpixel canvas x y;
    Some (default c (Image.getpixel img (x - ox) (y - oy))).
Proof.
  intros Hx Hy.
  rewrite (getpixel_nonneg (Image.paste _ _ _)), (getpixel_nonneg canvas) by done. simpl.
  rewrite list_lookup_imap.
  destruct (Image.pixels canvas !! Z.to_nat y) as [row|]; simpl; [|done].
  rewrite list_lookup_imap.
  destruct (row !! Z.to_nat x) as [c|]; simpl; [|done].
  by rewrite !Z2Nat.id by lia.
Qed.

(** Lines 154-158 on an image of size [w] by [h]. *)
Lemma make_square_spec img :
  Image.wf img ->
  let w := Image.width img in
  let h := Image.height img in
  let max_dim := Z.max w h in
  let ox := (max_dim - w) / 2 in
  let oy := (max_dim - h) / 2 in
  Image.wf (terrain.make_square img) /\
  Image.mode (terrain.make_square img) = "L" /\
  Image.size (terrain.make_square img) = (max_dim, max_dim) /\
  forall x y, 0 <= x < max_dim -> 0 <= y < max_dim ->
    Image.getpixel (terrain.make_square img) x y
    = if bool_decide (ox <= x < ox + w /\ oy <= y < oy + h)
      then Image.getpixel img (x - ox) (y - oy)
      else Some [0].
Proof.
  intros Hwf w h max_dim ox oy.
  assert (0 <= w /\ 0 <= h) as [Hw Hh] by (destruct Hwf as (? & ? & ?); unfold w, h; lia).
  unfold terrain.make_square, Image.size. fold w h max_dim ox oy.
  assert (Hcanvas : Image.wf (Image.new "L" (max_dim, max_dim) 0)) by (apply new_wf; lia).
  split_and!.
  - by apply paste_wf.
  - done.
  - done.
  - intros x y Hx Hy. rewrite getpixel_paste by lia.
    rewrite getpixel_new by lia. simpl.
    case_bool_decide as Hin.
    + destruct (proj2 (getpixel_wf img (x - ox) (y - oy) Hwf)) as [p ->]; [|done].
      unfold w, h in *. lia.
    + destruct (Image.getpixel img (x - ox) (y - oy)) as [p|] eqn:Hp; [|done].
      exfalso. apply Hin.
      destruct (proj1 (getpixel_wf img (x - ox) (y - oy) Hwf)) as [? ?]; [by eexists|].
      unfold w, h in *. lia.
Qed.




(** ** Shapes of arrays *)

Lemma mapM_Ok {A B} (f : A -> result B) (l : list A) (k : list B) :
  mapM f l = Ok k -> Forall2 (fun x y => f x = Ok y) l k.
Proof.
  revert k. induction l as [|x l IH]; intros k; simpl.
  - intros [= <-]. constructor.
  - destruct (f x) as [y|] eqn:Hy; simpl; [|done].
    destruct (mapM f l) as [k'|]; simpl; [|done].
    intros [= <-]. constructor; [done|]. by apply IH.
Qed.

Lemma mapM_total {A B} (f : A -> result B) (l : list A) :
  Forall (fun x => exists y, f x = Ok y) l -> exists k, mapM f l = Ok k.
Proof.
  induction 1 as [|x l [y Hy] _ [k Hk]]; simpl; [by eexists|].
  rewrite Hy. simpl. rewrite Hk. simpl. by eexists.
Qed.

Lemma mapM_raises {A B} (f : A -> result B) (l : list A) e :
  l <> [] -> Forall (fun x => f x = Raise e) l -> mapM f l = Raise e.
Proof.
  intros Hne Hall. destruct Hall as [|x l Hx _]; [done|]. simpl. by rewrite Hx.
Qed.

Lemma mapM_grid_shape {A B} (f : A -> result B) (g : list (list A)) g' h w :
  mapM (mapM f) g = Ok g' -> grid_shape g h w -> grid_shape g' h w.
Proof.
  intros Hg%mapM_Ok [Hh Hw]. split.
  - by rewrite <- (Forall2_length _ _ _ Hg).
  - clear Hh. induction Hg as [|row row' g g' Hrow _ IH]; [constructor|].
    apply Forall_cons in Hw as [Hr Hw]. constructor; [|by apply IH].
    apply mapM_Ok in Hrow. by rewrite <- (Forall2_length _ _ _ Hrow).
Qed.

Lemma map_grid_shape {A B} (f : A -> B) (g : list (list A)) h w :
  grid_shape g h w -> grid_shape (map (map f) g) h w.
Proof.
  intros [Hh Hw]. split; [by rewrite length_map|].
  apply Forall_fmap. eapply Forall_impl; [exact Hw|]. intros row Hrow. simpl.
  by rewrite length_map.
Qed.

Lemma stack3_shape {A} (b0 b1 b2 : list (list A)) h w :
  grid_shape b0 h w -> grid_shape b1 h w -> grid_shape b2 h w ->
  grid_shape (np.stack3 b0 b1 b2) h w.
Proof.
  intros [H0 W0] [H1 W1] [H2 W2]. unfold np.stack3. split.
  - rewrite length_zip_with, length_zip. lia.
  - apply Forall_forall. intros row Hrow.
    apply elem_of_zip_with in Hrow as (r0 & [r1 r2] & -> & Hr0 & Hr12).
    apply elem_of_zip_l in Hr12 as Hr1. apply elem_of_zip_r in Hr12 as Hr2.
    eapply Forall_forall in W0; [|exact Hr0].
    eapply Forall_forall in W1; [|exact Hr1].
    eapply Forall_forall in W2; [|exact Hr2].
    simpl in *. rewrite length_zip_with, length_zip. lia.
Qed.

Lemma mapM_three_channels {A} (f : A -> result Z) (rgb : list (list (list A))) px :
  Forall (Forall (fun p => length p = 3%nat)) rgb ->
  mapM (mapM (mapM f)) rgb = Ok px -> three_channels px.
Proof.
  intros Hrgb Hpx%mapM_Ok.
  induction Hpx as [|row row' g g' Hrow _ IH]; [constructor|].
  apply Forall_cons in Hrgb as [Hr Hrgb]. constructor; [|by apply IH].
  apply mapM_Ok in Hrow. clear IH Hrgb.
  induction Hrow as [|p p' r r' Hp _ IH]; [constructor|].
  apply Forall_cons in Hr as [Hp3 Hr]. constructor; [|by apply IH].
  apply mapM_Ok in Hp. by rewrite <- (Forall2_length _ _ _ Hp).
Qed.

Lemma stack3_cells_three {A} (b0 b1 b2 : list (list A)) :
  Forall (Forall (fun p => length p = 3%nat)) (np.stack3 b0 b1 b2).
Proof.
  unfold np.stack3. apply Forall_forall. intros row Hrow.
  apply elem_of_zip_with in Hrow as (r0 & [r1 r2] & -> & _ & _).
  apply Forall_forall. intros p Hp.
  by apply elem_of_zip_with in Hp as (x & [y z] & -> & _ & _).
Qed.

(** ** Reading a texture back *)

Lemma stack3_band_of px :
  three_channels px -> np.stack3 (band_of 0 px) (band_of 1 px) (band_of 2 px) = px.
Proof.
  unfold np.stack3, band_of. induction 1 as [|row px Hrow _ IH]; [done|].
  simpl. f_equal; [|exact IH]. clear IH.
  induction Hrow as [|p row Hp _ IH]; [done|].
  simpl. f_equal; [|exact IH].
  destruct p as [|r [|g [|b [|]]]]; done.
Qed.

Lemma fromarray_wf rgb h w :
  1 <= h -> 0 <= w -> grid_shape rgb h w ->
  Image.wf (Image.fromarray rgb) /\ Image.size (Image.fromarray rgb) = (w, h).
Proof.
  intros Hh Hw0 [Hlen Hw].
  assert (Hwidth : Z.of_nat (length (default [] (head rgb))) = w).
  { destruct rgb as [|row rgb]; simpl in *; [lia|]. by apply Forall_cons in Hw as [? _]. }
  unfold Image.wf, Image.size, Image.fromarray. simpl. rewrite Hwidth.
  split_and!; [lia|done|done|by rewrite Hlen].
Qed.

Lemma fromarray_pixels img :
  Image.wf img -> Image.mode img = "RGB" -> 1 <= Image.height img ->
  Image.fromarray (Image.pixels img) = img.
Proof.
  intros (H0 & Hh & Hw) Hmode Hheight. destruct img as [m w h px]. simpl in *. subst m.
  unfold Image.fromarray. f_equal; [|done].
  destruct px as [|row px]; simpl in *; [lia|]. by apply Forall_cons in Hw as [? _].
Qed.

Section reread.
Context {F : Type} {FF : Float F} {PIL : Image.Pillow}.

Lemma new_size_within_cap w h :
  w <= 2048 -> h <= 2048 -> terrain.new_size (F:=F) w h = Ok None.
Proof.
  intros Hw Hh. unfold terrain.new_size.
  destruct (Z.ltb_spec 2048 w); [lia|]. by destruct (Z.ltb_spec 2048 h); [lia|].
Qed.

Lemma resize_for_web_within_cap img :
  Image.width img <= 2048 -> Image.height img <= 2048 ->
  terrain.resize_for_web (F:=F) img = Ok img.
Proof.
  intros Hw Hh. unfold terrain.resize_for_web. by rewrite new_size_within_cap.
Qed.

Lemma normalize_texture img crs bounds nodata :
  Image.wf img -> Image.mode img = "RGB" -> three_channels (Image.pixels img) ->
  1 <= Image.width img <= 2048 -> 1 <= Image.height img <= 2048 ->
  terrain.normalize (raster_of_texture (F:=F) img crs bounds nodata) = Ok (img, Image.size img).
Proof.
  intros Hwf Hmode Hpx Hw Hh. unfold terrain.normalize, raster_of_texture. simpl.
  unfold terrain.to_rgb. simpl. rewrite stack3_band_of by done. simpl.
  rewrite fromarray_pixels by (done || lia).
  by rewrite resize_for_web_within_cap by lia.
Qed.

Lemma py_index_elem {A} (l : list A) i x : py_index l i = Ok x -> x ∈ l.
Proof.
  unfold py_index. destruct (_ || _); [done|].
  destruct (l !! _) eqn:Hl; [|done]. intros [= <-]. by eapply list_elem_of_lookup_2.
Qed.

Lemma py_index_shape {A} (a : list (list (list A))) i b h w :
  Forall (fun b => grid_shape b h w) a -> py_index a i = Ok b -> grid_shape b h w.
Proof.
  intros Ha Hi%py_index_elem. by apply (proj1 (Forall_forall _ _) Ha).
Qed.

Lemma rgb_of_bands_shape data h w rgb :
  raster_shape data h w -> terrain.rgb_of_bands (F:=F) data = Ok rgb ->
  grid_shape rgb h w /\ three_channels rgb.
Proof.
  intros Hshape. unfold terrain.rgb_of_bands. destruct data as [a|a]; simpl in Hshape.
  - destruct (py_index a 0) as [b0|] eqn:H0; simpl; [|done].
    destruct (py_index a 1) as [b1|] eqn:H1; simpl; [|done].
    destruct (py_index a 2) as [b2|] eqn:H2; simpl; [|done].
    intros [= <-]. split; [|apply stack3_cells_three].
    apply stack3_shape; by eapply py_index_shape.
  - destruct (py_index a 0) as [b0|] eqn:H0; simpl; [|done].
    destruct (py_index a 1) as [b1|] eqn:H1; simpl; [|done].
    destruct (py_index a 2) as [b2|] eqn:H2; simpl; [|done].
    destruct (np.min _) as [lo|]; simpl; [|done].
    destruct (np.max _) as [hi|]; simpl; [|done].
    intros Hrgb. split.
    + eapply mapM_grid_shape; [exact Hrgb|].
      apply stack3_shape; by eapply py_index_shape.
    + eapply mapM_three_channels; [|exact Hrgb]. apply stack3_cells_three.
Qed.

Lemma rgb_of_band_shape data nodata h w rgb :
  raster_shape data h w -> terrain.rgb_of_band (F:=F) data nodata = Ok rgb ->
  grid_shape rgb h w /\ three_channels rgb.
Proof.
  intros Hshape. unfold terrain.rgb_of_band.
  destruct (terrain.first_band data) as [band|] eqn:Hband; simpl; [|done].
  assert (Hb : grid_shape band h w).
  { unfold terrain.first_band in Hband. destruct data as [a|a]; simpl in Hshape.
    - destruct (py_index a 0) as [b|] eqn:H0; simpl in Hband; [|done].
      injection Hband as <-. apply map_grid_shape. by eapply py_index_shape.
    - by eapply py_index_shape. }
  destruct (terrain.band_range band nodata) as [[b_min b_max]|]; simpl; [|done].
  destruct (if flt b_min b_max then _ else _) as [normalized|] eqn:Hn; simpl; [|done].
  intros [= <-].
  assert (grid_shape normalized h w).
  { destruct (flt b_min b_max).
    - by eapply mapM_grid_shape.
    - injection Hn as <-. by apply map_grid_shape. }
  split; [|apply stack3_cells_three].
  apply stack3_shape; by apply map_grid_shape.
Qed.

Lemma to_rgb_shape data nodata h w rgb :
  raster_shape data h w -> terrain.to_rgb (F:=F) data nodata = Ok rgb ->
  grid_shape rgb h w /\ three_channels rgb.
Proof.
  unfold terrain.to_rgb. destruct (3 <=? np.shape0 data);
    eauto using rgb_of_bands_shape, rgb_of_band_shape.
Qed.

(** C7. On a raster within the cap, normalisation (band handling and the
    dimension cap, before encoding) is idempotent: an 8-bit raster of three
    bands comes out with its own pixel grid, and the texture normalisation
    produces, read back as a raster, is normalised to itself, with the same
    dimensions. *)
Theorem normalize_idempotent (src : rasterio.DatasetReader F) h w crs bounds nodata :
  raster_shape (rasterio.read src) h w ->
  1 <= w <= 2048 ->
  1 <= h <= 2048 ->
  (forall b0 b1 b2 rest,
     rasterio.read src = np.uint8 (b0 :: b1 :: b2 :: rest) ->
     terrain.normalize src = Ok (Image.fromarray (np.stack3 b0 b1 b2), (w, h))) /\
  (forall img original,
     terrain.normalize src = Ok (img, original) ->
     original = (w, h) /\ Image.size img = (w, h) /\
     terrain.normalize (raster_of_texture (F:=F) img crs bounds nodata) = Ok (img, original)).
Proof.
  intros Hshape Hw Hh.
  assert (Hnormalize : forall img original,
            terrain.normalize src = Ok (img, original) ->
            exists rgb, terrain.to_rgb (rasterio.read src) (rasterio.nodata src) = Ok rgb /\
                        img = Image.fromarray rgb /\ original = (w, h)).
  { intros img original. unfold terrain.normalize.
    destruct (terrain.to_rgb _ _) as [rgb|] eqn:Hrgb; simpl; [|done].
    destruct (to_rgb_shape _ _ _ _ _ Hshape Hrgb) as [Hgrid _].
    destruct (fromarray_wf rgb h w) as [_ Hsize]; [lia..|done|].
    injection Hsize as Hiw Hih.
    rewrite resize_for_web_within_cap by (simpl; lia). simpl.
    intros [= <- <-]. exists rgb. unfold Image.size. simpl. by rewrite Hiw, Hih. }
  split.
  - intros b0 b1 b2 rest Hread.
    assert (Hrgb : terrain.to_rgb (rasterio.read src) (rasterio.nodata src)
                   = Ok (np.stack3 b0 b1 b2)).
    { rewrite Hread. unfold terrain.to_rgb, terrain.rgb_of_bands, np.shape0.
      destruct (Z.leb_spec 3 (Z.of_nat (length (b0 :: b1 :: b2 :: rest)))); [|simpl in *; lia].
      destruct (py_index_lookup (b0 :: b1 :: b2 :: rest) 0) as (x0 & -> & [= <-]); [simpl; lia|].
      destruct (py_index_lookup (b0 :: b1 :: b2 :: rest) 1) as (x1 & -> & [= <-]); [simpl; lia|].
      destruct (py_index_lookup (b0 :: b1 :: b2 :: rest) 2) as (x2 & -> & [= <-]); [simpl; lia|].
      done. }
    destruct (to_rgb_shape _ _ _ _ _ Hshape Hrgb) as [Hgrid _].
    destruct (fromarray_wf (np.stack3 b0 b1 b2) h w) as [_ Hsize]; [lia..|done|].
    injection Hsize as Hiw Hih.
    unfold terrain.normalize. rewrite Hrgb. simpl.
    rewrite resize_for_web_within_cap by (simpl; lia). simpl.
    unfold Image.size. simpl. by rewrite Hiw, Hih.
  - intros img original (rgb & Hrgb & -> & ->)%Hnormalize.
    destruct (to_rgb_shape _ _ _ _ _ Hshape Hrgb) as [Hgrid Hpx].
    destruct (fromarray_wf rgb h w) as [Hwf Hsize]; [lia..|done|].
    split; [done|]. split; [done|].
    rewrite <- Hsize. injection Hsize as Hiw Hih.
    apply normalize_texture; [done..|simpl; lia|simpl; lia].
Qed.

End reread.

Lemma normalize_idempotent_witness :
  exists img,
    terrain.normalize (FF:=exact) (PIL:=small_pillow) small_raster = Ok (img, (2, 2)) /\
    Image.pixels img = [[[10; 50; 90]; [20; 60; 100]]; [[30; 70; 110]; [40; 80; 120]]] /\
    terrain.normalize (FF:=exact) (PIL:=small_pillow)
      (raster_of_texture img "EPSG:4326" (0, 0, 1, 1)%Q None) = Ok (img, (2, 2)).
Proof.
  destruct (normalize_idempotent (FF:=exact) (PIL:=small_pillow) small_raster 2 2
              "EPSG:4326" (0, 0, 1, 1)%Q None) as [Hsame Hagain].
  - repeat constructor.
  - lia.
  - lia.
  - pose proof (Hsame [[10; 20]; [30; 40]] [[50; 60]; [70; 80]] [[90; 100]; [110; 120]] []
                  eq_refl) as Hnormalize.
    eexists. split; [exact Hnormalize|]. split; [reflexivity|].
    by apply Hagain.
Defined.

(** ** The dimension cap in the two extractors *)

Section cap.
Context {F : Type} {FF : Float F} {PIL : Image.Pillow}.

Lemma resize_for_web_size img sz nw nh :
  terrain.new_size (FF:=FF) (Image.width img) (Image.height img) = Ok sz ->
  default (Image.size img) sz = (nw, nh) ->
  1 <= nw -> 1 <= nh ->
  exists out, terrain.resize_for_web (FF:=FF) img = Ok out /\ Image.size out = (nw, nh).
Proof.
  intros Hsz Hdefault Hnw Hnh. unfold terrain.resize_for_web. rewrite Hsz. simpl.
  destruct sz as [[a b]|]; simpl in Hdefault.
  - injection Hdefault as -> ->.
    destruct (Image.resize_ok img nw nh) as (out & -> & _ & Hsize & _); [done..|]. eauto.
  - eauto.
Qed.

Lemma extract_from_image_size fs file_path img w h sz nw nh :
  fs !! file_path = Some img -> Image.wf img -> Image.size img = (w, h) ->
  terrain.new_size (FF:=FF) w h = Ok sz -> default (w, h) sz = (nw, nh) ->
  1 <= nw -> 1 <= nh ->
  exists tex,
    run (terrain.extract_from_image (FF:=FF) fs file_path) = (Ok tex, [Opened file_path]) /\
    (terrain.width tex, terrain.height tex) = (nw, nh) /\
    (terrain.original_width tex, terrain.original_height tex) = (w, h).
Proof.
  intros Hfs Hwf Hsize Hsz Hdefault Hnw Hnh.
  unfold run, terrain.extract_from_image, mbind, io_bind, Image.open, lift. rewrite Hfs. simpl.
  set (rgb := if bool_decide (Image.mode img = "RGB") then img else Image.convert img "RGB").
  assert (Hrgb : Image.size rgb = (w, h)).
  { unfold rgb. case_bool_decide; [done|].
    destruct (Image.convert_ok img "RGB" Hwf) as (_ & -> & _). done. }
  injection Hrgb as Hrw Hrh.
  destruct (resize_for_web_size rgb sz nw nh) as (out & -> & Hout).
  - by rewrite Hrw, Hrh.
  - unfold Image.size. by rewrite Hrw, Hrh.
  - done.
  - done.
  - simpl. eexists. split; [done|]. simpl. rewrite Hrw, Hrh. split; [|done].
    by injection Hout as -> ->.
Qed.

Lemma extract_geotiff_data_size transform_bounds fs file_path src rgb w h sz nw nh :
  fs !! file_path = Some src ->
  terrain.to_rgb (rasterio.read src) (rasterio.nodata src) = Ok rgb ->
  grid_shape rgb h w -> 0 <= w -> 1 <= h ->
  terrain.new_size (FF:=FF) w h = Ok sz -> default (w, h) sz = (nw, nh) ->
  1 <= nw -> 1 <= nh ->
  exists data,
    run (terrain.extract_geotiff_data (FF:=FF) true transform_bounds fs file_path)
    = (Ok data, [Opened file_path]) /\
    (terrain.width (terrain.geo_texture data), terrain.height (terrain.geo_texture data))
    = (nw, nh) /\
    (terrain.original_width (terrain.geo_texture data),
     terrain.original_height (terrain.geo_texture data)) = (w, h).
Proof.
  intros Hfs Hrgb Hgrid Hw Hh Hsz Hdefault Hnw Hnh.
  unfold run, terrain.extract_geotiff_data, mbind, io_bind, rasterio.open, lift.
  rewrite Hfs. simpl.
  destruct (transform_bounds _ _ _) as [[[bw bs] be] bn].
  unfold terrain.normalize. rewrite Hrgb. simpl.
  destruct (fromarray_wf rgb h w) as [_ Hsize]; [done..|].
  injection Hsize as Hrw Hrh.
  destruct (resize_for_web_size (Image.fromarray rgb) sz nw nh) as (out & -> & Hout).
  - simpl. by rewrite Hrw, Hrh.
  - unfold Image.size. simpl. by rewrite Hrw, Hrh.
  - done.
  - done.
  - simpl. eexists. split; [done|]. simpl. rewrite Hrw, Hrh. split; [|done].
    by injection Hout as -> ->.
Qed.

End cap.

(** ** Arithmetic under the standard model *)

Lemma Qtrunc_floor (q : Q) : (0 <= q)%Q -> Qtrunc q = Qfloor q.
Proof.
  destruct q as [n d]. unfold Qle, Qtrunc, Qfloor. simpl. intros Hn.
  apply Z.quot_div_nonneg; lia.
Qed.

Lemma Qtrunc_bounds (q : Q) (n : Z) :
  (0 <= q)%Q -> (q < inject_Z (n + 1))%Q -> 0 <= Qtrunc q <= n.
Proof.
  intros H0 Hn. rewrite Qtrunc_floor by done. split.
  - pose proof (Qfloor_resp_le (inject_Z 0) q H0) as Hf. by rewrite Qfloor_Z in Hf.
  - apply Z.lt_succ_r. rewrite <- Z.add_1_r, Zlt_Qlt.
    eapply Qle_lt_trans; [apply Qfloor_le|done].
Qed.

Lemma Qtrunc_eq (q : Q) (n : Z) :
  (inject_Z n <= q)%Q -> (q < inject_Z (n + 1))%Q -> 0 <= n -> Qtrunc q = n.
Proof.
  intros Hlo Hhi Hn.
  assert (0 <= q)%Q.
  { eapply Qle_trans; [|exact Hlo]. change 0%Q with (inject_Z 0). by rewrite <- Zle_Qle. }
  rewrite Qtrunc_floor by done.
  apply Z.le_antisymm.
  - apply Z.lt_succ_r. rewrite <- Z.add_1_r, Zlt_Qlt.
    eapply Qle_lt_trans; [apply Qfloor_le|done].
  - pose proof (Qfloor_resp_le (inject_Z n) q Hlo) as Hf. by rewrite Qfloor_Z in Hf.
Qed.

Section standard_model.
Context {PIL : Image.Pillow}.
Variable rnd : Q -> Q.
Hypothesis rnd_error : forall q, (Qabs (rnd q - q) <= unit_roundoff * Qabs q)%Q.

Local Abbreviation fl := (rounded rnd).

Lemma rnd_nonneg q : (0 <= q)%Q ->
  (q - unit_roundoff * q <= rnd q)%Q /\ (rnd q <= q + unit_roundoff * q)%Q.
Proof.
  intros Hq. pose proof (rnd_error q) as He.
  rewrite (Qabs_pos q) in He by done.
  apply Qabs_Qle_condition in He as [He1 He2]. split; lra.
Qed.

Lemma rnd_pos q : (0 < q)%Q -> (0 < rnd q)%Q.
Proof.
  intros Hq. destruct (rnd_nonneg q) as [Hlo _]; [lra|].
  unfold unit_roundoff in *. lra.
Qed.

Lemma rnd_zero q : (q == 0)%Q -> (rnd q == 0)%Q.
Proof.
  intros Hq. pose proof (rnd_error q) as He.
  rewrite (Qabs_wd q 0 Hq) in He. change (Qabs 0) with 0%Q in He.
  apply Qabs_Qle_condition in He as [He1 He2]. lra.
Qed.

Lemma inject_Z_pos (z : Z) : 1 <= z -> (1 <= inject_Z z)%Q.
Proof. intros Hz. change 1%Q with (inject_Z 1). by rewrite <- Zle_Qle. Qed.

Lemma true_div_rounded a b :
  1 <= b -> terrain.true_div (FF:=fl) a b = Ok (rnd (inject_Z a / inject_Z b)).
Proof.
  intros Hb%inject_Z_pos. unfold terrain.true_div. simpl.
  destruct (Qeq_bool (inject_Z b) 0) eqn:E; [|done].
  apply Qeq_bool_eq in E. lra.
Qed.

(** The quotient [2048 / d] as computed, times [d]. *)
Lemma scaled_quotient (d : Z) :
  1 <= d ->
  let r := rnd (2048 / inject_Z d) in
  (0 < r)%Q /\
  (2048 - 2048 * unit_roundoff <= inject_Z d * r)%Q /\
  (inject_Z d * r <= 2048 + 2048 * unit_roundoff)%Q.
Proof.
  intros Hd%inject_Z_pos r.
  assert (Hq : (0 < 2048 / inject_Z d)%Q).
  { apply Qlt_shift_div_l; lra. }
  assert (Hdq : (inject_Z d * (2048 / inject_Z d) == 2048)%Q).
  { field. lra. }
  destruct (rnd_nonneg (2048 / inject_Z d)) as [Hlo Hhi]; [lra|].
  fold r in Hlo, Hhi.
  split; [by apply rnd_pos|].
  split; nra.
Qed.

Lemma py_min2_rounded (a b : Q) :
  let m := py_min2 (FF:=fl) a b in
  (m <= a)%Q /\ (m <= b)%Q /\ (m = a \/ m = b).
Proof.
  unfold py_min2. simpl. destruct (Qltb b a) eqn:E.
  - apply Qltb_lt in E. split_and!; [lra|lra|by right].
  - apply Qltb_ge in E. split_and!; [lra|lra|by left].
Qed.

(** One side of the new size: [int(d * ratio)] for a ratio that is at most
    the quotient [2048 / d] as computed. *)
Lemma scaled_side (d : Z) (ratio : Q) :
  1 <= d -> (0 < ratio)%Q -> (ratio <= rnd (2048 / inject_Z d))%Q ->
  0 <= Qtrunc (rnd (inject_Z d * ratio)) <= 2048.
Proof.
  intros Hd Hpos Hle.
  destruct (scaled_quotient d Hd) as (_ & _ & Hhi).
  apply inject_Z_pos in Hd.
  assert (Hp : (0 <= inject_Z d * ratio)%Q) by nra.
  destruct (rnd_nonneg _ Hp) as [Hlo' Hhi'].
  apply Qtrunc_bounds.
  - unfold unit_roundoff in *. nra.
  - change (inject_Z (2048 + 1)) with 2049%Q. unfold unit_roundoff in *. nra.
Qed.

(** The computed ratio is the exact ratio [2048 / max(w, h)] up to one
    rounding. *)
Lemma ratio_exact (w h : Z) :
  1 <= w -> 1 <= h ->
  let ratio := py_min2 (FF:=fl) (rnd (2048 / inject_Z w)) (rnd (2048 / inject_Z h)) in
  let q := (2048 / inject_Z (Z.max w h))%Q in
  (q - unit_roundoff * q <= ratio)%Q /\ (ratio <= q + unit_roundoff * q)%Q.
Proof.
  intros Hw Hh ratio q.
  assert (HW := inject_Z_pos w Hw). assert (HH := inject_Z_pos h Hh).
  assert (HM : (1 <= inject_Z (Z.max w h))%Q) by (apply inject_Z_pos; lia).
  assert (HWM : (inject_Z w <= inject_Z (Z.max w h))%Q) by (rewrite <- Zle_Qle; lia).
  assert (HHM : (inject_Z h <= inject_Z (Z.max w h))%Q) by (rewrite <- Zle_Qle; lia).
  assert (Hq : (inject_Z (Z.max w h) * q == 2048)%Q) by (unfold q; field; lra).
  assert (Hqw : (inject_Z w * (2048 / inject_Z w) == 2048)%Q) by (field; lra).
  assert (Hqh : (inject_Z h * (2048 / inject_Z h) == 2048)%Q) by (field; lra).
  assert (0 < q)%Q by nra.
  assert (Hw0 : (0 < 2048 / inject_Z w)%Q) by nra.
  assert (Hh0 : (0 < 2048 / inject_Z h)%Q) by nra.
  assert (Hqlw : (q <= 2048 / inject_Z w)%Q) by nra.
  assert (Hqlh : (q <= 2048 / inject_Z h)%Q) by nra.
  destruct (rnd_nonneg (2048 / inject_Z w)) as [Hwlo Hwhi]; [lra|].
  destruct (rnd_nonneg (2048 / inject_Z h)) as [Hhlo Hhhi]; [lra|].
  assert (Hu : (0 <= unit_roundoff)%Q /\ (unit_roundoff <= 1)%Q) by (unfold unit_roundoff; lra).
  assert (Hlow : (q - unit_roundoff * q <= rnd (2048 / inject_Z w))%Q) by nra.
  assert (Hloh : (q - unit_roundoff * q <= rnd (2048 / inject_Z h))%Q) by nra.
  assert (Hmin : (ratio <= rnd (2048 / inject_Z w))%Q /\ (ratio <= rnd (2048 / inject_Z h))%Q /\
                 (ratio = rnd (2048 / inject_Z w) \/ ratio = rnd (2048 / inject_Z h))).
  { unfold ratio, py_min2. simpl. destruct (Qltb _ _) eqn:E.
    - apply Qltb_lt in E. split_and!; [lra|lra|by right].
    - apply Qltb_ge in E. split_and!; [lra|lra|by left]. }
  destruct Hmin as (Hrw & Hrh & Hr).
  split.
  - destruct Hr as [-> | ->]; done.
  - destruct (Z.max_spec w h) as [[_ Hmax]|[_ Hmax]]; unfold q; rewrite Hmax; lra.
Qed.

(** One side of the new size is the exactly scaled side up to the two
    roundings and the truncation. *)
Lemma scaled_side_exact (d m : Z) (ratio : Q) :
  1 <= d <= m ->
  let q := (2048 / inject_Z m)%Q in
  (q - unit_roundoff * q <= ratio)%Q -> (ratio <= q + unit_roundoff * q)%Q ->
  scaled_by_cap d m (Qtrunc (rnd (inject_Z d * ratio))).
Proof.
  intros [Hd Hm] q Hlo Hhi. unfold scaled_by_cap.
  set (n := Qtrunc (rnd (inject_Z d * ratio))).
  assert (HD := inject_Z_pos d Hd).
  assert (HM : (1 <= inject_Z m)%Q) by (apply inject_Z_pos; lia).
  assert (Hq : (inject_Z m * q == 2048)%Q) by (unfold q; field; lra).
  assert (Hq0 : (0 < q)%Q) by nra.
  assert (Hu : (0 <= unit_roundoff)%Q /\ (unit_roundoff <= 1 # 2)%Q) by (unfold unit_roundoff; lra).
  assert (Hr0 : (0 <= ratio)%Q) by nra.
  assert (Hp : (0 <= inject_Z d * ratio)%Q) by nra.
  destruct (rnd_nonneg _ Hp) as [Hplo Hphi].
  assert (Hrp : (0 <= rnd (inject_Z d * ratio))%Q) by nra.
  pose proof (Qfloor_le (rnd (inject_Z d * ratio))) as Hfl.
  pose proof (Qlt_floor (rnd (inject_Z d * ratio))) as Hfu.
  rewrite inject_Z_plus in Hfu. change (inject_Z 1) with 1%Q in Hfu.
  unfold n. rewrite Qtrunc_floor by done.
  set (f := inject_Z (Qfloor (rnd (inject_Z d * ratio)))) in *.
  set (p := rnd (inject_Z d * ratio)) in *.
  set (D := inject_Z d) in *. set (M := inject_Z m) in *.
  assert (Hx1 : (D * ratio <= D * q * (1 + unit_roundoff))%Q) by nra.
  assert (Hx2 : (D * q * (1 - unit_roundoff) <= D * ratio)%Q) by nra.
  assert (Hp1 : (p <= D * q * (1 + unit_roundoff) * (1 + unit_roundoff))%Q).
  { apply Qle_trans with ((1 + unit_roundoff) * (D * ratio))%Q; [lra|].
    apply Qle_trans with ((1 + unit_roundoff) * (D * q * (1 + unit_roundoff)))%Q.
    - apply Qmult_le_l; [lra|done].
    - apply Qle_lteq. right. ring. }
  assert (Hp2 : (D * q * (1 - unit_roundoff) * (1 - unit_roundoff) <= p)%Q).
  { apply Qle_trans with ((1 - unit_roundoff) * (D * ratio))%Q; [|lra].
    apply Qle_trans with ((1 - unit_roundoff) * (D * q * (1 - unit_roundoff)))%Q.
    - apply Qle_lteq. right. ring.
    - apply Qmult_le_l; [lra|done]. }
  split.
  - assert (f * M <= D * (M * q) * (1 + unit_roundoff) * (1 + unit_roundoff))%Q by nra.
    nra.
  - assert (D * (M * q) * (1 - unit_roundoff) * (1 - unit_roundoff) < (f + 1) * M)%Q by nra.
    nra.
Qed.
Lemma new_size_capped w h :
  1 <= w -> 1 <= h -> 2048 < w \/ 2048 < h ->
  let ratio := py_min2 (FF:=fl) (rnd (2048 / inject_Z w)) (rnd (2048 / inject_Z h)) in
  let nw := Qtrunc (rnd (inject_Z w * ratio)) in
  let nh := Qtrunc (rnd (inject_Z h * ratio)) in
  terrain.true_div (FF:=fl) 2048 w = Ok (rnd (2048 / inject_Z w)) /\
  terrain.true_div (FF:=fl) 2048 h = Ok (rnd (2048 / inject_Z h)) /\
  terrain.new_size (FF:=fl) w h = Ok (Some (nw, nh)) /\
  0 <= nw <= 2048 /\ 0 <= nh <= 2048 /\
  scaled_by_cap w (Z.max w h) nw /\ scaled_by_cap h (Z.max w h) nh.
Proof.
  intros Hw Hh Hbig ratio nw nh.
  pose proof (true_div_rounded 2048 w Hw) as Hrw.
  pose proof (true_div_rounded 2048 h Hh) as Hrh.
  change (inject_Z 2048) with 2048%Q in Hrw, Hrh.
  split; [done|]. split; [done|]. split.
  - unfold terrain.new_size. rewrite Hrw, Hrh.
    destruct (Z.ltb_spec 2048 w), (Z.ltb_spec 2048 h); simpl; try done; lia.
  - destruct (py_min2_rounded (rnd (2048 / inject_Z w)) (rnd (2048 / inject_Z h)))
      as (Hlw & Hlh & Hratio).
    fold ratio in Hlw, Hlh, Hratio.
    destruct (scaled_quotient w Hw) as (Hpw & _).
    destruct (scaled_quotient h Hh) as (Hph & _).
    assert (0 < ratio)%Q by (by destruct Hratio as [-> | ->]).
    destruct (ratio_exact w h Hw Hh) as [Hlo Hhi]. fold ratio in Hlo, Hhi.
    split; [by apply scaled_side|]. split; [by apply scaled_side|].
    split; apply scaled_side_exact; (done || lia).
Qed.



End standard_model.

(** In binary64 the longer side does not always come out as 2048: the
    quotient [2048 / 2215], rounded, times 2215 is just below 2048, where
    exact arithmetic gives 2048. *)
Example long_side_rounds_down :
  terrain.new_size (FF:=binary64) 2215 100 = Ok (Some (2047, 92)) /\
  terrain.new_size (FF:=exact) 2215 100 = Ok (Some (2048, 92)).
Proof. split; by vm_compute. Qed.

Lemma exact_error (q : Q) : (Qabs (q - q) <= unit_roundoff * Qabs q)%Q.
Proof.
  assert (Hz : (q - q == 0)%Q) by ring. rewrite (Qabs_wd _ _ Hz).
  pose proof (Qabs_nonneg q). change (Qabs 0) with 0%Q. unfold unit_roundoff. lra.
Qed.


(** ** Normalisation of a single band *)

Section single_band.
Context {F : Type} {FF : Float F}.

Lemma concat_map_map {A B} (f : A -> B) (g : list (list A)) :
  concat (map (map f) g) = map f (concat g).
Proof.
  induction g as [|row g IH]; simpl; [done|]. by rewrite IH, map_app.
Qed.

Lemma select_map (f : F -> bool) (l : list F) :
  omap (fun xm : F * bool => if xm.2 then Some xm.1 else None) (zip l (map f l))
  = filter (fun x => f x = true) l.
Proof.
  induction l as [|x l IH]; simpl; [done|].
  destruct (f x) eqn:E; simpl.
  - rewrite filter_cons_True by done. f_equal. exact IH.
  - rewrite filter_cons_False by congruence. exact IH.
Qed.

Lemma valid_mask_concat band nodata :
  concat (terrain.valid_mask band nodata) = map (is_valid nodata) (concat band).
Proof.
  unfold terrain.valid_mask, is_valid. destruct nodata; apply concat_map_map.
Qed.

Lemma select_valid band nodata :
  terrain.select band (terrain.valid_mask band nodata)
  = filter (fun x => is_valid nodata x = true) (concat band).
Proof.
  unfold terrain.select. rewrite valid_mask_concat. apply select_map.
Qed.

Lemma any_valid band nodata :
  terrain.any (terrain.valid_mask band nodata) = true
  <-> filter (fun x => is_valid nodata x = true) (concat band) <> [].
Proof.
  unfold terrain.any. rewrite valid_mask_concat.
  induction (concat band) as [|x l IH]; simpl; [done|].
  destruct (is_valid nodata x) eqn:E; simpl.
  - by rewrite filter_cons_True by done.
  - by rewrite filter_cons_False by congruence.
Qed.

Lemma mapM_map {A B} (f : A -> result B) (g : A -> B) (l : list A) :
  (forall x, x ∈ l -> f x = Ok (g x)) -> mapM f l = Ok (map g l).
Proof.
  induction l as [|x l IH]; intros Hf; simpl; [done|].
  rewrite Hf by left. simpl. rewrite IH; [done|]. intros y Hy. apply Hf. by right.
Qed.

Lemma stack3_diag {A} (g : list (list A)) :
  np.stack3 g g g = map (map (fun z => [z; z; z])) g.
Proof.
  unfold np.stack3. rewrite zip_diag, zip_with_fmap_r, zip_with_diag.
  apply list_fmap_ext. intros _ row _. simpl.
  by rewrite zip_diag, zip_with_fmap_r, zip_with_diag.
Qed.

Lemma Forall2_map_grid {A B} (R : A -> B -> Prop) (h : A -> B) (g : list (list A)) :
  (forall x, R x (h x)) -> Forall2 (Forall2 R) g (map (map h) g).
Proof.
  intros HR. induction g as [|row g IH]; simpl; constructor; [|done].
  induction row as [|x row IHrow]; simpl; constructor; [apply HR|done].
Qed.

Lemma Forall2_grid_r {A B} (R : A -> B -> Prop) (P : B -> Prop) g g' :
  Forall2 (Forall2 R) g g' -> (forall x z, R x z -> P z) -> Forall (Forall P) g'.
Proof.
  intros Hg HP. induction Hg as [|row row' g g' Hrow _ IH]; [constructor|].
  constructor; [|exact IH]. clear IH.
  induction Hrow as [|x z r r' Hxz _ IH]; [constructor|].
  constructor; [by eapply HP|exact IH].
Qed.

End single_band.

(** *** The zero divisor

    What the guard of line 66 and its absence on line 57 turn on: a rounded
    difference is zero exactly when the difference is, which holds in every
    IEEE format, single precision included. *)

Section zero_divisor.
Variable rnd : Q -> Q.
Hypothesis rnd_zero_iff : forall q, (rnd q == 0)%Q <-> (q == 0)%Q.

Local Abbreviation fl := (rounded rnd).

(** Line 67 at one pixel, under the guard of line 66. *)
Lemma stretch_rounded b_min b_max x :
  (b_min < b_max)%Q ->
  terrain.stretch (FF:=fl) b_min b_max x
  = Ok (rnd (rnd (rnd (x - b_min) / rnd (b_max - b_min)) * 255)).
Proof.
  intros Hlt. unfold terrain.stretch. simpl.
  destruct (Qeq_bool (rnd (b_max - b_min)) 0) eqn:E; [|done].
  apply Qeq_bool_eq in E. apply (proj1 (rnd_zero_iff _)) in E. lra.
Qed.

Lemma band_range_rounded band nodata :
  let valid := filter (fun x => is_valid (FF:=fl) nodata x = true) (concat band) in
  exists b_min b_max,
    terrain.band_range (FF:=fl) band nodata = Ok (b_min, b_max) /\
    (valid = [] -> b_min = 0%Q /\ b_max = 1%Q) /\
    (valid <> [] -> minimum_of valid b_min /\ maximum_of valid b_max).
Proof.
  intros valid. unfold terrain.band_range.
  pose proof (any_valid (FF:=fl) band nodata) as Hany. fold valid in Hany.
  rewrite (select_valid (FF:=fl)). fold valid.
  destruct (terrain.any (terrain.valid_mask band nodata)).
  - assert (Hne : valid <> []) by (by apply Hany).
    destruct (py_min_minimum rnd valid Hne) as (lo & Hlo & Hmin).
    destruct (py_max_maximum rnd valid Hne) as (hi & Hhi & Hmax).
    unfold np.min, np.max. rewrite Hlo, Hhi. simpl.
    exists lo, hi. split; [done|]. split; [done|]. done.
  - assert (Hnil : valid = []).
    { destruct valid; [done|]. assert (false = true); [|done]. by apply Hany. }
    simpl. exists 0%Q, 1%Q. split; [done|]. split; [done|]. done.
Qed.

Lemma single_band_rounded (data : np.ndarray Q) (nodata : option Q) (band : list (list Q)) :
  np.shape0 data < 3 ->
  terrain.first_band (FF:=fl) data = Ok band ->
  let valid := filter (fun x => is_valid (FF:=fl) nodata x = true) (concat band) in
  exists b_min b_max : Q,
    terrain.band_range (FF:=fl) band nodata = Ok (b_min, b_max) /\
    (valid = [] -> b_min = 0%Q /\ b_max = 1%Q) /\
    (valid <> [] -> minimum_of valid b_min /\ maximum_of valid b_max) /\
    terrain.to_rgb (FF:=fl) data nodata = Ok (map (map (grey_pixel rnd b_min b_max)) band).
Proof.
  intros Hbands Hband valid.
  destruct (band_range_rounded band nodata) as (b_min & b_max & Hrange & Hnone & Hsome).
  fold valid in Hnone, Hsome.
  exists b_min, b_max.
  split; [done|]. split; [done|]. split; [done|].
  unfold terrain.to_rgb. destruct (Z.leb_spec 3 (np.shape0 data)); [lia|].
  unfold terrain.rgb_of_band. rewrite Hband. simpl. rewrite Hrange. simpl.
  assert (Hn : (if Qltb b_min b_max
                then mapM (mapM (terrain.stretch (FF:=fl) b_min b_max)) band
                else Ok (map (map (fun _ => 0%Q)) band))
               = Ok (map (map (stretched rnd b_min b_max)) band)).
  { unfold stretched. destruct (Qltb b_min b_max) eqn:E; [|done].
    apply Qltb_lt in E. apply mapM_map. intros row _. apply mapM_map. intros x _.
    by apply stretch_rounded. }
  change (inject_Z 0) with 0%Q. change (inject_Z 255) with 255%Q. rewrite Hn. simpl.
  rewrite stack3_diag, <- !list_fmap_compose. f_equal.
  apply list_fmap_ext. intros _ row _. simpl. rewrite <- !list_fmap_compose. done.
Qed.

Lemma grey_pixel_flat b_min b_max x :
  (b_min == b_max)%Q -> grey_pixel rnd b_min b_max x = [0; 0; 0].
Proof.
  intros Heq. unfold grey_pixel, stretched.
  destruct (Qltb b_min b_max) eqn:E; [apply Qltb_lt in E; lra|]. done.
Qed.

(** Line 57 at one cell, when the stack is not constant. *)
Lemma rescale_rounded lo hi x :
  (lo < hi)%Q -> exists z, terrain.rescale (FF:=fl) lo hi x = Ok z.
Proof.
  intros Hlt. unfold terrain.rescale. simpl.
  destruct (Qeq_bool (rnd (hi - lo)) 0) eqn:E; [|by eexists].
  apply Qeq_bool_eq in E. apply (proj1 (rnd_zero_iff _)) in E. lra.
Qed.

(** Line 57 at one cell, when the stack is constant: the divisor is zero. *)
Lemma rescale_constant lo hi x :
  (lo == hi)%Q -> terrain.rescale (FF:=fl) lo hi x = Raise InvalidValue.
Proof.
  intros Heq. unfold terrain.rescale. simpl.
  assert (Hzero : (rnd (hi - lo) == 0)%Q) by (apply (proj2 (rnd_zero_iff _)); lra).
  apply Qeq_bool_iff in Hzero. by rewrite Hzero.
Qed.

Lemma mapM_first_raises {A B} (f : A -> result B) (x : A) (l : list A) e :
  f x = Raise e -> mapM f (x :: l) = Raise e.
Proof. intros Hx. simpl. by rewrite Hx. Qed.

Lemma grid_first_cell {A} (b : list (list A)) h w :
  grid_shape b h w -> 1 <= h -> 1 <= w -> exists x row b', b = (x :: row) :: b'.
Proof.
  intros [Hh Hw] H1 H2. destruct b as [|[|x row] b']; simpl in *; [lia| |by eauto].
  apply Forall_cons in Hw as [Hrow _]. simpl in Hrow. lia.
Qed.


End zero_divisor.


(** *** The values of the pixels *)

Section band_model.
Variable rnd : Q -> Q.
Hypothesis rnd_error : forall q, (Qabs (rnd q - q) <= unit_roundoff * Qabs q)%Q.

Local Abbreviation fl := (rounded rnd).

Lemma rnd_error_zero q : (rnd q == 0)%Q <-> (q == 0)%Q.
Proof.
  split; [|by apply rnd_zero].
  intros Hr. pose proof (rnd_error q) as He.
  assert (Hq : (rnd q - q == - q)%Q) by lra.
  rewrite (Qabs_wd _ _ Hq), Qabs_opp in He.
  pose proof (Qabs_nonneg q) as Hn.
  assert (Hz : (Qabs q == 0)%Q) by (unfold unit_roundoff in He; lra).
  destruct (Qlt_le_dec q 0) as [Hneg|Hpos].
  - rewrite Qabs_neg in Hz by lra. lra.
  - rewrite Qabs_pos in Hz by lra. lra.
Qed.

(** Line 71 at one pixel. *)
Lemma clip_cast_range (v : Q) :
  0 <= np.astype_uint8 (FF:=fl) (np.clip (FF:=fl) v 0%Q 255%Q) <= 255.
Proof.
  unfold np.astype_uint8.
  pose proof (Z.mod_pos_bound (trunc (Float:=fl) (np.clip (FF:=fl) v 0%Q 255%Q)) 256). lia.
Qed.

Lemma clip_cast_inside (v : Q) (n : Z) :
  0 <= n <= 255 -> (inject_Z n <= v)%Q -> (v < inject_Z (n + 1))%Q ->
  np.astype_uint8 (FF:=fl) (np.clip (FF:=fl) v 0%Q 255%Q) = n.
Proof.
  intros Hn Hlo Hhi. unfold np.astype_uint8, np.clip. simpl.
  assert (Hn0 : (0 <= inject_Z n)%Q) by (change 0%Q with (inject_Z 0); rewrite <- Zle_Qle; lia).
  assert (Hn1 : (inject_Z (n + 1) <= 256)%Q)
    by (change 256%Q with (inject_Z 256); rewrite <- Zle_Qle; lia).
  destruct (Qltb v 0) eqn:E0; [apply Qltb_lt in E0; lra|].
  destruct (Qltb 255 v) eqn:E1.
  - (* the value is above 255: then n = 255 *)
    apply Qltb_lt in E1.
    assert (n = 255) as ->.
    { destruct (Z.eq_dec n 255); [done|].
      assert (inject_Z (n + 1) <= 255)%Q
        by (change 255%Q with (inject_Z 255); rewrite <- Zle_Qle; lia). lra. }
    done.
  - rewrite (Qtrunc_eq v n) by (done || lia). apply Z.mod_small. lia.
Qed.

(** The pixel 500 of a band whose valid range is [0, 1000]. *)
Lemma stretch_mid b_min b_max x :
  (b_min == 0)%Q -> (b_max == 1000)%Q -> (x == 500)%Q ->
  let v := rnd (rnd (rnd (x - b_min) / rnd (b_max - b_min)) * 255) in
  (127 <= v)%Q /\ (v < 128)%Q.
Proof.
  intros Hmin Hmax Hx.
  assert (Hu : unit_roundoff = 1 # 9007199254740992) by done.
  destruct (rnd_nonneg rnd rnd_error (x - b_min)) as [Ha1 Ha2]; [lra|].
  destruct (rnd_nonneg rnd rnd_error (b_max - b_min)) as [Hb1 Hb2]; [lra|].
  set (a := rnd (x - b_min)) in *. set (b := rnd (b_max - b_min)) in *.
  assert (Hab : (4999 # 10 <= a)%Q /\ (a <= 5001 # 10)%Q) by (rewrite Hu in *; split; lra).
  assert (Hbb : (9999 # 10 <= b)%Q /\ (b <= 10001 # 10)%Q) by (rewrite Hu in *; split; lra).
  assert (Hc : (b * (a / b) == a)%Q) by (field; lra).
  set (c := (a / b)%Q) in *.
  assert (Hcb : (4998 # 10000 <= c)%Q /\ (c <= 5002 # 10000)%Q) by (split; nra).
  destruct (rnd_nonneg rnd rnd_error c) as [Hd1 Hd2]; [lra|].
  set (d := rnd c) in *.
  assert (Hdb : (4997 # 10000 <= d)%Q /\ (d <= 5003 # 10000)%Q) by (rewrite Hu in *; split; lra).
  destruct (rnd_nonneg rnd rnd_error (d * 255)) as [He1 He2]; [lra|].
  simpl. rewrite Hu in *. split; lra.
Qed.


End band_model.

